(** * fedcal: the appropriations-status interval engine

    A shallow embedding of [fedcal/time_utils.py], [fedcal/_tree.py] and the
    status-related parts of [fedcal/fedstamp.py], together with the
    properties of the interval normalizer, the two tree builders, the
    unified tree and the public constructor [to_fedstamp].

    Python sets are [gset]s, the [IntervalTree] of the intervaltree package
    is a [gset] of interval records (it is a [MutableSet] of [Interval]s),
    exceptions are an explicit [result] type, and mutation of [self] or of
    class attributes is explicit state passing. *)

From Stdlib Require Import ZArith String List Lia.
From stdpp Require Import base option list gmap sets strings.

Local Open Scope Z_scope.

(** ** Python exceptions and results *)

Inductive PyExc : Set :=
  | ValueError
  | TypeError
  | OverflowError
  | AttributeError
  | DataIntegrityError.

#[global] Instance PyExc_eq_dec : EqDecision PyExc.
Proof. solve_decision. Defined.

Inductive result (A : Type) : Type :=
  | Ok (a : A)
  | Raise (e : PyExc).

Arguments Ok {A} a.
Arguments Raise {A} e.

Definition rbind {A B : Type} (r : result A) (k : A -> result B) : result B :=
  match r with
  | Ok a => k a
  | Raise e => Raise e
  end.

(** The call returned, it did not raise. *)
Definition is_Ok {A : Type} (r : result A) : bool :=
  match r with
  | Ok _ => true
  | Raise _ => false
  end.

Notation "x <~ r ;; k" := (rbind r (fun x => k))
  (at level 100, r at next level, k at level 200, right associativity).

(** ** Python values that reach the date converters

    [FedStampConvertibleTypes] as a closed variant.  A [datetime.date] is its
    day number relative to 1970-01-01, a [pd.Timestamp] is its value in
    seconds (as [Timestamp.timestamp()] reports it, a naive stamp read as
    UTC) with its optional time zone.  [float], [np.int64], [np.datetime64]
    and [datetime] are dispatched to the same converters as [int] and
    [date]; they are left out. *)

Record Timestamp : Set := mkTimestamp {
  ts_seconds : Z;
  ts_tz : option string
}.

#[global] Instance Timestamp_eq_dec : EqDecision Timestamp.
Proof. solve_decision. Defined.

#[warnings="-register-all"]
Inductive PyVal : Type :=
  | VNone
  | VBool (b : bool)
  | VInt (n : Z)
  | VStr (s : string)
  | VDate (day : Z)
  | VTimestamp (t : Timestamp)
  | VYearMonthDay (year month day : Z)
  | VTuple (items : list PyVal).

(** What the Python runtime and the host decide: the local UTC offset (in
    seconds) in force at a POSIX time, and the parsers behind [int(str)],
    [date.fromisoformat] and [datetime.strptime(s, fmt).date()]. *)
Class Platform : Type := {
  utc_offset : Z -> Z;
  int_of_str : string -> option Z;
  date_fromisoformat : string -> option Z;
  date_strptime : string -> string -> option Z
}.

(** A host on UTC whose parsers accept nothing. *)
Definition utc_platform : Platform := {|
  utc_offset := fun _ => 0;
  int_of_str := fun _ => None;
  date_fromisoformat := fun _ => None;
  date_strptime := fun _ _ => None
|}.

(** ** The proleptic Gregorian calendar, as [datetime] and pandas use it *)

Definition is_leap (y : Z) : bool :=
  (y mod 4 =? 0) && (negb (y mod 100 =? 0) || (y mod 400 =? 0)).

Definition days_in_month (y m : Z) : Z :=
  if m =? 2 then (if is_leap y then 29 else 28)
  else if (m =? 4) || (m =? 6) || (m =? 9) || (m =? 11) then 30
  else 31.

Definition valid_ymd (y m d : Z) : bool :=
  (1 <=? y) && (y <=? 9999) && (1 <=? m) && (m <=? 12)
  && (1 <=? d) && (d <=? days_in_month y m).

(** Days from 1970-01-01 to the civil date [y-m-d]. *)
Definition days_from_civil (y m d : Z) : Z :=
  let y' := if m <=? 2 then y - 1 else y in
  let era := y' / 400 in
  let yoe := y' - era * 400 in
  let mp := (m + 9) mod 12 in
  let doy := (153 * mp + 2) / 5 + d - 1 in
  let doe := yoe * 365 + yoe / 4 - yoe / 100 + doy in
  era * 146097 + doe - 719468.

(** [pd.Timestamp] holds 64-bit nanoseconds: midnight stamps exist for the
    days -106751 .. 106751 only (1677-09-22 .. 2262-04-11); outside it raises
    [OutOfBoundsDatetime], a [ValueError]. *)
Definition pd_Timestamp_of_day (day : Z) : result Timestamp :=
  if (-106751 <=? day) && (day <=? 106751)
  then Ok (mkTimestamp (86400 * day) None)
  else Raise ValueError.

(** [pd.Timestamp(year=, month=, day=)] *)
Definition pd_Timestamp_ymd (y m d : Z) : result Timestamp :=
  if valid_ymd y m d then pd_Timestamp_of_day (days_from_civil y m d)
  else Raise ValueError.

(** [date.fromtimestamp(n)]: the local date at POSIX time [n]. *)
Definition date_fromtimestamp `{Platform} (n : Z) : result Z :=
  let day := (n + utc_offset n) / 86400 in
  if (-719162 <=? day) && (day <=? 2932896) then Ok day
  else Raise OverflowError.

(** The builtin [int] on the values a time tuple may hold. *)
Definition py_int `{Platform} (v : PyVal) : result Z :=
  match v with
  | VInt n => Ok n
  | VBool b => Ok (if b then 1 else 0)
  | VStr s => match int_of_str s with Some n => Ok n | None => Raise ValueError end
  | _ => Raise TypeError
  end.

(** ** time_utils.py *)

Module time_utils.

(** Modelled from the spec: [pdtimestamp_to_posix_day] is called by
    [_tree.py] and [fedstamp.py] but is not defined in [time_utils.py].
    The spec's day offset is the "integer count of days since a fixed
    epoch", and [FedStamp.posix_day] documents "the number of days since
    the Unix epoch ... as an integer normalized to midnight". *)
Definition pdtimestamp_to_posix_day (timestamp : Timestamp) : Z :=
  ts_seconds timestamp / 86400.

(** What [_stamp_date] is handed by the converters below. *)
Inductive StampArg : Set :=
  | ATimestamp (t : Timestamp)
  | ADate (day : Z)
  | ANone.

(** The body of [_stamp_date], under its decorator. *)
Definition _stamp_date_body (timestamp : Timestamp) : result Timestamp :=
  match ts_tz timestamp with
  | Some _ => Ok (mkTimestamp (ts_seconds timestamp) (Some "America/New_York"%string))
  | None => Ok timestamp
  end.

(** [check_timestamp]: the wrapper that [_stamp_date] is decorated with. *)
Definition check_timestamp (func : Timestamp -> result Timestamp)
    (arg : StampArg) : result Timestamp :=
  match arg with
  | ATimestamp t => func t
  | ANone => Raise ValueError
  | ADate day => t <~ pd_Timestamp_of_day day ;; func t
  end.

Definition _stamp_date : StampArg -> result Timestamp :=
  check_timestamp _stamp_date_body.

Definition _timestamp_to_timestamp (date_input : Timestamp) : result Timestamp :=
  _stamp_date (ATimestamp date_input).

Definition _posix_to_timestamp `{Platform} (date_input : Z) : result Timestamp :=
  d <~ date_fromtimestamp date_input ;; _stamp_date (ADate d).

(** The [for fmt in (...)] loop of [_str_to_timestamp]: a [ValueError]
    moves on to the next format, anything else leaves the loop. *)
Fixpoint _str_formats `{Platform} (date_input : string) (fmts : list string)
    : result Timestamp :=
  match fmts with
  | [] => Raise ValueError
  | fmt :: rest =>
      let attempt :=
        match date_strptime date_input fmt with
        | Some d => _stamp_date (ADate d)
        | None => Raise ValueError
        end in
      match attempt with
      | Raise ValueError => _str_formats date_input rest
      | r => r
      end
  end.

Definition _str_to_timestamp `{Platform} (date_input : string) : result Timestamp :=
  let attempt :=
    match date_fromisoformat date_input with
    | Some d => _stamp_date (ADate d)
    | None => Raise ValueError
    end in
  match attempt with
  | Raise ValueError =>
      _str_formats date_input
        ["%m/%d/%Y"; "%m-%d-%Y"; "%d/%m/%Y"; "%d-%m-%Y"]%string
  | r => r
  end.

Definition _date_to_timestamp (date_input : Z) : result Timestamp :=
  _stamp_date (ADate date_input).

(** [YearMonthDay.to_pdtimestamp] *)
Definition to_pdtimestamp (year month day : Z) : result Timestamp :=
  pd_Timestamp_ymd year month day.

Definition _yearmonthday_to_timestamp (year month day : Z) : result Timestamp :=
  t <~ to_pdtimestamp year month day ;; _stamp_date (ATimestamp t).

Definition _timetuple_to_timestamp `{Platform} (date_input : list PyVal)
    : result Timestamp :=
  match date_input with
  | [a; b; c] =>
      year <~ py_int a ;;
      month <~ py_int b ;;
      day <~ py_int c ;;
      if (1970 <=? year) && (year <=? 9999)
      then t <~ to_pdtimestamp year month day ;; _stamp_date (ATimestamp t)
      else Raise ValueError
  | _ => Raise ValueError
  end.

(** The [singledispatch] function: [bool] is a subclass of [int] and goes
    to the converter registered for [int]; a type without a registered
    converter reaches the default body. *)
Definition to_timestamp `{Platform} (date_input : PyVal) : result Timestamp :=
  match date_input with
  | VTimestamp t => _timestamp_to_timestamp t
  | VInt n => _posix_to_timestamp n
  | VBool b => _posix_to_timestamp (if b then 1 else 0)
  | VStr s => _str_to_timestamp s
  | VDate d => _date_to_timestamp d
  | VYearMonthDay y m d => _yearmonthday_to_timestamp y m d
  | VTuple items => _timetuple_to_timestamp items
  | VNone => Raise TypeError
  end.

End time_utils.

(** ** constants.py

    [fedcal/constants.py] is not among the sources: the department
    enumeration, the two historical tables and the day constants are
    parameters of the development.  A table is the list of the items of its
    dict, in the dict's order. *)

Inductive ShutdownFlag : Set :=
  | SHUTDOWN
  | NO_SHUTDOWN.

#[global] Instance ShutdownFlag_eq_dec : EqDecision ShutdownFlag.
Proof. solve_decision. Defined.

(** Modelled from the spec: the values of [constants.STATUS_MAP] are not in
    src.  The spec's StatusKind has the five values DEFAULT,
    CONTINUING_RESOLUTION, APPROPRIATIONS_GAP, SHUTDOWN and
    CR_DATA_CUTOFF_DEFAULT, reached through the short keys "DEFAULT_STATUS",
    "CR_STATUS", "GAP_STATUS", "SHUTDOWN_STATUS" and
    "CR_DATA_CUTOFF_DEFAULT_STATUS"; a StatusTuple is named by its key. *)
Inductive StatusTuple : Set :=
  | DEFAULT_STATUS
  | CR_STATUS
  | GAP_STATUS
  | SHUTDOWN_STATUS
  | CR_DATA_CUTOFF_DEFAULT_STATUS.

#[global] Instance StatusTuple_eq_dec : EqDecision StatusTuple.
Proof. solve_decision. Defined.

#[global] Instance StatusTuple_countable : Countable StatusTuple.
Proof.
  refine (inj_countable'
    (fun s => match s with
              | DEFAULT_STATUS => 0%nat | CR_STATUS => 1%nat | GAP_STATUS => 2%nat
              | SHUTDOWN_STATUS => 3%nat | CR_DATA_CUTOFF_DEFAULT_STATUS => 4%nat
              end)
    (fun n => match n with
              | 0%nat => DEFAULT_STATUS | 1%nat => CR_STATUS | 2%nat => GAP_STATUS
              | 3%nat => SHUTDOWN_STATUS | _ => CR_DATA_CUTOFF_DEFAULT_STATUS
              end) _).
  by intros [].
Defined.

(** [STATUS_MAP.get(key)] *)
Definition STATUS_MAP_get (key : string) : option StatusTuple :=
  if String.eqb key "DEFAULT_STATUS" then Some DEFAULT_STATUS
  else if String.eqb key "CR_STATUS" then Some CR_STATUS
  else if String.eqb key "GAP_STATUS" then Some GAP_STATUS
  else if String.eqb key "SHUTDOWN_STATUS" then Some SHUTDOWN_STATUS
  else if String.eqb key "CR_DATA_CUTOFF_DEFAULT_STATUS"
       then Some CR_DATA_CUTOFF_DEFAULT_STATUS
  else None.

(** [CRMapType], [AppropriationsGapsMapType] and
    [AssembledBudgetIntervalType] of [_typing.py]. *)
Abbreviation CRMapType Dept := (list ((Z * Z) * gset Dept)).
Abbreviation AppropriationsGapsMapType Dept :=
  (list ((Z * Z) * (gset Dept * ShutdownFlag))).
Abbreviation AssembledBudgetIntervalType Dept := (gset Dept * StatusTuple)%type.

Class Constants (Dept : Type) `{Countable Dept} : Type := {
  DHS : Dept;
  DEPTS_SET : gset Dept;
  DHS_FORMED : Z;
  CR_DATA_CUTOFF_DATE : Z;
  CR_DEPARTMENTS : CRMapType Dept;
  APPROPRIATIONS_GAPS : AppropriationsGapsMapType Dept;
  (** the departments active on a day, kept by [_dept_status.py] and
      [depts.py], which are not among the sources either *)
  departments_active_on : Z -> gset Dept
}.

(** ** The intervaltree package, as far as fedcal uses it *)

Module intervaltree.
Section intervaltree.
Context {Dept : Type} `{Countable Dept}.

Record Interval : Type := mkInterval {
  begin : Z;
  end_ : Z;
  data : AssembledBudgetIntervalType Dept
}.

#[global] Instance Interval_eq_dec : EqDecision Interval.
Proof. solve_decision. Defined.

#[global] Instance Interval_countable : Countable Interval.
Proof.
  refine (inj_countable'
    (fun iv => (begin iv, end_ iv, data iv))
    (fun t => mkInterval t.1.1 t.1.2 t.2) _).
  by intros [].
Defined.

(** [Interval.is_null] *)
Definition is_null (iv : Interval) : bool := end_ iv <=? begin iv.

(** [IntervalTree.addi]: a duplicate is ignored, a null interval is
    refused. *)
Definition addi (t : gset Interval) (b e : Z)
    (d : AssembledBudgetIntervalType Dept) : result (gset Interval) :=
  let iv := mkInterval b e d in
  if decide (iv ∈ t) then Ok t
  else if is_null iv then Raise ValueError
  else Ok ({[ iv ]} ∪ t).

(** [IntervalTree.at(p)], also [tree[p]]: the intervals that contain the
    point, the end being exclusive. *)
Definition at_ (t : gset Interval) (p : Z) : gset Interval :=
  filter (fun iv => begin iv <= p < end_ iv) t.

(** [IntervalTree.union] *)
Definition union (t other : gset Interval) : gset Interval := t ∪ other.

(** Truth value of a tree: it has a length, so it is true when not empty. *)
Definition truthy (t : gset Interval) : bool := bool_decide (t ≠ ∅).

End intervaltree.
#[global] Arguments Interval Dept {_ _}.
End intervaltree.

(** ** _tree.py *)

Module _tree.
Import time_utils intervaltree.

(** The test [x is not isinstance(x, int)] that guards every conversion:
  [isinstance] yields [True] or [False], and the only object that is
  [True] is [True] itself, so the test fails for [True] alone.  For an
  [int] other than [True] it holds, and the value is converted. *)
Definition is_not_isinstance_int (x : PyVal) : bool :=
match x with
| VBool true => false
| _ => true
end.

(** The number an unconverted bound stands for in a comparison; comparing
  an [int] with anything but a number raises [TypeError]. *)
Definition py_num (x : PyVal) : result Z :=
match x with
| VInt n => Ok n
| VBool b => Ok (if b then 1 else 0)
| _ => Raise TypeError
end.

Section helpers.
Context `{Platform}.

(** [time_utils.pdtimestamp_to_posix_day(timestamp=time_utils.to_timestamp(x))] *)
Definition to_posix_day (x : PyVal) : result PyVal :=
  t <~ to_timestamp x ;; Ok (VInt (pdtimestamp_to_posix_day t)).

Definition _get_date_interval (dates : PyVal * PyVal) : result (PyVal * PyVal) :=
  let '(start, end_) := dates in
  start <~ (if is_not_isinstance_int start then to_posix_day start else Ok start) ;;
  end_ <~ (if is_not_isinstance_int end_ then to_posix_day end_ else Ok end_) ;;
  Ok (start, end_).

(** [None] is "no overlap".  The second conversion is applied to
    [start_range], which by then holds the converted start. *)
Definition _get_overlap_interval (start end_ : Z)
    (date_range : option (PyVal * PyVal)) : result (option (Z * Z)) :=
  match date_range with
  | None => Ok (Some (start, end_))
  | Some (start_range, end_range) =>
      start_range <~ (if is_not_isinstance_int start_range
                      then to_posix_day start_range else Ok start_range) ;;
      end_range <~ (if is_not_isinstance_int end_range
                    then to_posix_day start_range else Ok end_range) ;;
      start_range <~ py_num start_range ;;
      end_range <~ py_num end_range ;;
      if (end_ <? start_range) || (start >? end_range) then Ok None
      else Ok (Some (Z.max start start_range, Z.min end_ end_range))
  end.

(** [date_range = _get_date_interval(dates=dates) if dates else None] *)
Definition date_range_of (dates : option (PyVal * PyVal))
    : result (option (PyVal * PyVal)) :=
  match dates with
  | Some d => r <~ _get_date_interval d ;; Ok (Some r)
  | None => Ok None
  end.

End helpers.

Module CRTreeGrower.
Section CRTreeGrower.
Context {Dept : Type} `{Countable Dept} `{!Constants Dept} `{Platform}.

Record t : Type := mk {
  depts_set : gset Dept;
  cr_departments : CRMapType Dept;
  tree : gset (Interval Dept)
}.

Definition _filter_cr_department_sets (departments : gset Dept) : gset Dept :=
  DEPTS_SET ∖ departments.

(** The departments stored for a table entry that ends on day [end_]. *)
Definition generated_departments (end_ : Z) (departments : gset Dept) : gset Dept :=
  if end_ <? DHS_FORMED
  then _filter_cr_department_sets departments ∖ {[ DHS ]}
  else _filter_cr_department_sets departments.

(** One pass of the [for] loop over [cr_departments.items()]. *)
Definition grow_step (date_range : option (PyVal * PyVal))
    (cr_tree : gset (Interval Dept)) (item : (Z * Z) * gset Dept)
    : result (gset (Interval Dept)) :=
  let '((start, end_), departments) := item in
  overlap <~ _get_overlap_interval start end_ date_range ;;
  match overlap with
  | Some _ =>
      addi cr_tree start (end_ + 1)
        (generated_departments end_ departments, CR_STATUS)
  | None => Ok cr_tree
  end.

(** The loop.  The tree is the object [self.tree], grown in place: when a
    pass raises, the intervals added so far stay in it. *)
Fixpoint grow_loop (date_range : option (PyVal * PyVal))
    (items : CRMapType Dept) (cr_tree : gset (Interval Dept))
    : result unit * gset (Interval Dept) :=
  match items with
  | [] => (Ok tt, cr_tree)
  | item :: rest =>
      match grow_step date_range cr_tree item with
      | Ok cr_tree' => grow_loop date_range rest cr_tree'
      | Raise e => (Raise e, cr_tree)
      end
  end.

Definition with_tree (self : t) (tr : gset (Interval Dept)) : t :=
  mk (depts_set self) (cr_departments self) tr.

(** [grow_cr_tree(self, cr_departments=None, dates=None)]: the result and
    [self] afterwards. *)
Definition grow_cr_tree (self : t) (cr_departments_arg : option (CRMapType Dept))
    (dates : option (PyVal * PyVal)) : result (gset (Interval Dept)) * t :=
  if truthy (tree self) then (Ok (tree self), self)
  else
    let cr_departments := default (cr_departments self) cr_departments_arg in
    match date_range_of dates with
    | Raise e => (Raise e, self)
    | Ok date_range =>
        let '(r, cr_tree) := grow_loop date_range cr_departments (tree self) in
        (_ <~ r ;; Ok cr_tree, with_tree self cr_tree)
    end.

(** [__attrs_post_init__]: [self.tree = self.grow_cr_tree()] *)
Definition __attrs_post_init__ (self : t) : result t :=
  let '(r, self') := grow_cr_tree self None None in
  tr <~ r ;; Ok (with_tree self' tr).

(** [CRTreeGrower()], every field at its default. *)
Definition new : result t :=
  __attrs_post_init__ (mk DEPTS_SET CR_DEPARTMENTS ∅).

End CRTreeGrower.
#[global] Arguments t Dept {_ _}.
End CRTreeGrower.

Module AppropriationsGapsTreeGrower.
Section AppropriationsGapsTreeGrower.
Context {Dept : Type} `{Countable Dept} `{!Constants Dept} `{Platform}.

Record t : Type := mk {
  tree : gset (Interval Dept);
  appropriations_gaps : AppropriationsGapsMapType Dept;
  dates : option (PyVal * PyVal)
}.

(** The status stored for a table entry. *)
Definition gap_status (shutdown : ShutdownFlag) : StatusTuple :=
  if decide (shutdown = SHUTDOWN) then SHUTDOWN_STATUS else GAP_STATUS.

(** One pass of the [for] loop over [appropriations_gaps.items()]. *)
Definition grow_step (date_range : option (PyVal * PyVal))
    (gap_tree : gset (Interval Dept))
    (item : (Z * Z) * (gset Dept * ShutdownFlag))
    : result (gset (Interval Dept)) :=
  let '((start, end_), (departments, shutdown)) := item in
  overlap <~ _get_overlap_interval start end_ date_range ;;
  match overlap with
  | Some _ => addi gap_tree start (end_ + 1) (departments, gap_status shutdown)
  | None => Ok gap_tree
  end.

Fixpoint grow_loop (date_range : option (PyVal * PyVal))
    (items : AppropriationsGapsMapType Dept) (gap_tree : gset (Interval Dept))
    : result unit * gset (Interval Dept) :=
  match items with
  | [] => (Ok tt, gap_tree)
  | item :: rest =>
      match grow_step date_range gap_tree item with
      | Ok gap_tree' => grow_loop date_range rest gap_tree'
      | Raise e => (Raise e, gap_tree)
      end
  end.

Definition with_tree (self : t) (tr : gset (Interval Dept)) : t :=
  mk tr (appropriations_gaps self) (dates self).

(** [grow_appropriation_gaps_tree(self, appropriations_gaps=None,
    dates=None)]: the result and [self] afterwards.  The range is taken
    from the argument, the attribute [self.dates] is not read. *)
Definition grow_appropriation_gaps_tree (self : t)
    (appropriations_gaps_arg : option (AppropriationsGapsMapType Dept))
    (dates_arg : option (PyVal * PyVal)) : result (gset (Interval Dept)) * t :=
  if truthy (tree self) then (Ok (tree self), self)
  else
    let appropriations_gaps :=
      default (appropriations_gaps self) appropriations_gaps_arg in
    match date_range_of dates_arg with
    | Raise e => (Raise e, self)
    | Ok date_range =>
        let '(r, gap_tree) := grow_loop date_range appropriations_gaps (tree self) in
        (_ <~ r ;; Ok gap_tree, with_tree self gap_tree)
    end.

Definition __attrs_post_init__ (self : t) : result t :=
  let '(r, self') := grow_appropriation_gaps_tree self None None in
  tr <~ r ;; Ok (with_tree self' tr).

(** [AppropriationsGapsTreeGrower()], every field at its default. *)
Definition new : result t :=
  __attrs_post_init__ (mk ∅ APPROPRIATIONS_GAPS None).

End AppropriationsGapsTreeGrower.
#[global] Arguments t Dept {_ _}.
End AppropriationsGapsTreeGrower.

(** The class [Tree]: its five class attributes are the state, a class
    method maps the state to a result and the state afterwards. *)
Module Tree.
Section Tree.
Context {Dept : Type} `{Countable Dept} `{!Constants Dept} `{Platform}.

Record t : Type := mk {
  gap_instance : option (AppropriationsGapsTreeGrower.t Dept);
  cr_instance : option (CRTreeGrower.t Dept);
  cr_tree : option (gset (Interval Dept));
  gap_tree : option (gset (Interval Dept));
  tree : option (gset (Interval Dept))
}.

(** The class as first loaded. *)
Definition initial : t := mk None None None None None.

(** The tree in an attribute, when the attribute is true: set and not
    empty. *)
Definition if_true (attr : option (gset (Interval Dept)))
    : option (gset (Interval Dept)) :=
  match attr with
  | Some tr => if truthy tr then Some tr else None
  | None => None
  end.

Definition _initialize_cr_tree : result (CRTreeGrower.t Dept) :=
  CRTreeGrower.new.

Definition _initialize_gap_tree : result (AppropriationsGapsTreeGrower.t Dept) :=
  AppropriationsGapsTreeGrower.new.

Definition initialize_tree (cls : t) : result (gset (Interval Dept)) * t :=
  match if_true (tree cls) with
  | Some tr => (Ok tr, cls)
  | None =>
      match (match cr_instance cls with
             | Some ci => Ok ci
             | None => _initialize_cr_tree
             end) with
      | Raise e => (Raise e, cls)
      | Ok ci =>
          let cls1 := mk (gap_instance cls) (Some ci) (cr_tree cls)
                         (gap_tree cls) (tree cls) in
          match (match gap_instance cls1 with
                 | Some gi => Ok gi
                 | None => _initialize_gap_tree
                 end) with
          | Raise e => (Raise e, cls1)
          | Ok gi =>
              let crt := match if_true (cr_tree cls1) with
                         | Some tr => tr
                         | None => CRTreeGrower.tree ci
                         end in
              let gt := match if_true (gap_tree cls1) with
                        | Some tr => tr
                        | None => AppropriationsGapsTreeGrower.tree gi
                        end in
              (Ok (union crt gt),
               mk (Some gi) (Some ci) (Some crt) (Some gt) (tree cls1))
          end
      end
  end.

(** [Tree()]: [__attrs_post_init__] stores the result in the class. *)
Definition new (cls : t) : result unit * t :=
  match initialize_tree cls with
  | (Ok tr, cls') =>
      (Ok tt, mk (gap_instance cls') (cr_instance cls') (cr_tree cls')
                 (gap_tree cls') (Some tr))
  | (Raise e, cls') => (Raise e, cls')
  end.

End Tree.
#[global] Arguments t Dept {_ _}.
End Tree.

End _tree.

(** ** The status resolver *)

Module _dept_status.
Import time_utils intervaltree.
Section resolver.
Context {Dept : Type} `{Countable Dept} `{!Constants Dept} `{Platform}.

(** Step 3: the entry every active department starts with. *)
Definition default_status (day : Z) : StatusTuple :=
  if day <? CR_DATA_CUTOFF_DATE then CR_DATA_CUTOFF_DEFAULT_STATUS
  else DEFAULT_STATUS.

(** The statuses that the matched records assign to a department. *)
Definition statuses_for (matched : gset (Interval Dept)) (dept : Dept)
    : gset StatusTuple :=
  set_map (fun iv => (data iv).2) (filter (fun iv => dept ∈ (data iv).1) matched).

(** Two matched records give one department different statuses. *)
Definition conflicting (matched : gset (Interval Dept)) : Prop :=
  set_Exists (fun r1 =>
    set_Exists (fun r2 =>
      (data r1).2 ≠ (data r2).2 ∧ (data r1).1 ∩ (data r2).1 ≠ ∅) matched) matched.

#[global] Instance conflicting_dec matched : Decision (conflicting matched).
Proof. unfold conflicting. apply _. Defined.

(** Step 4 for one entry: the status of a matched record that affects the
    department replaces the entry. *)
Definition overwrite (matched : gset (Interval Dept)) (dept : Dept)
    (entry : StatusTuple) : StatusTuple :=
  match elements (statuses_for matched dept) with
  | st :: _ => st
  | [] => entry
  end.

(** Modelled from the spec: the resolver
    ([_dept_status.DepartmentState.get_state]) is not among the sources.
    Section 4.5: (1) the date is converted to a day offset; (2) the
    unified tree is queried for the records that cover the day; (3) every
    department active on the day starts at DEFAULT, or at
    CR_DATA_CUTOFF_DEFAULT strictly before the CR-data cutoff; (4) every
    matched record overwrites the entries of its departments, and two
    matched records that disagree on a department are flagged, not
    resolved by order; (5) a department filter restricts the result to
    its members. *)
Definition resolve (tree : gset (Interval Dept)) (date : PyVal)
    (department_filter : option (gset Dept)) : result (gmap Dept StatusTuple) :=
  t <~ to_timestamp date ;;
  let day := pdtimestamp_to_posix_day t in
  let matched := at_ tree day in
  if decide (conflicting matched) then Raise DataIntegrityError
  else
    let initial := gset_to_gmap (default_status day) (departments_active_on day) in
    let resolved :=
      map_imap (fun dept entry => Some (overwrite matched dept entry)) initial in
    match department_filter with
    | Some depts => Ok (filter (fun kv => kv.1 ∈ depts) resolved)
    | None => Ok resolved
    end.

End resolver.
End _dept_status.

(** ** fedstamp.py *)

Module fedstamp.
Import time_utils.
Section FedStamp.
Context {Dept : Type} `{Countable Dept} `{!Constants Dept} `{Platform}.

(** A [FedStamp]: [pdtimestamp] is an attribute that [__init__] may leave
    unset; the cache maps a department to the status tuple of its
    [FedDepartment] ([to_status_tuple]). *)
Record FedStamp : Type := mkFedStamp {
  pdtimestamp : option Timestamp;
  _status_cache : option (gmap Dept StatusTuple)
}.

Definition __init__ (pdtimestamp : PyVal) : result FedStamp :=
  match pdtimestamp with
  | VTimestamp t => Ok (mkFedStamp (Some t) None)
  | VNone => Ok (mkFedStamp None None)
  | other => t <~ to_timestamp other ;; Ok (mkFedStamp (Some t) None)
  end.

Definition posix_day (self : FedStamp) : result Z :=
  match pdtimestamp self with
  | Some t => Ok (pdtimestamp_to_posix_day t)
  | None => Raise AttributeError
  end.

(** [get_departments_by_status], on a stamp whose cache is set. *)
Definition get_departments_by_status (self : FedStamp) (status_key : string)
    : result (gmap Dept StatusTuple) :=
  let cache := _status_cache self in
  day <~ posix_day self ;;
  let status_key :=
    if (day <? CR_DATA_CUTOFF_DATE)
       && (String.eqb status_key "DEFAULT_STATUS"
           || String.eqb status_key "CR_STATUS")
    then "CR_DATA_CUTOFF_DEFAULT_STATUS"%string
    else status_key in
  match cache, STATUS_MAP_get status_key with
  | Some cache, Some target_status =>
      Ok (filter (fun kv => kv.2 = target_status) cache)
  | _, _ => Ok ∅
  end.

(** [to_fedstamp]: [date] is the tuple of the positional arguments. *)
Definition to_fedstamp (date : list PyVal) : result FedStamp :=
  let count := length date in
  if negb (Nat.eqb count 0) && (Nat.eqb count 1 || Nat.eqb count 3)
  then t <~ to_timestamp (VTuple date) ;; __init__ (VTimestamp t)
  else Raise ValueError.

End FedStamp.
#[global] Arguments FedStamp Dept {_ _}.
End fedstamp.

(** ** The status properties of [FedStamp]

    The properties that read the status cache through
    [get_departments_by_status], on a stamp whose cache is set. *)

Module FedStampStatus.
Import fedstamp.
Section status.
Context {Dept : Type} `{Countable Dept} `{!Constants Dept} `{Platform}.














End status.
End FedStampStatus.

(** ** A small instance: four departments and one entry in each table *)

Module Example.
Import intervaltree _tree.

Definition DeptX : string := "DeptX".
Definition DeptY : string := "DeptY".
Definition DeptZ : string := "DeptZ".

#[global] Instance platform : Platform := utc_platform.

(** DHS forms on day 12000; CR data start on day 10000; days 11000-11030
    are a CR for all but DeptX, and DeptX is shut down on days
    11010-11015. *)
#[global] Instance constants : Constants string := {|
  DHS := "DHS"%string;
  DEPTS_SET := {[ "DHS"%string; DeptX; DeptY; DeptZ ]};
  DHS_FORMED := 12000;
  CR_DATA_CUTOFF_DATE := 10000;
  CR_DEPARTMENTS := [ ((11000, 11030), {[ DeptX ]}) ];
  APPROPRIATIONS_GAPS := [ ((11010, 11015), ({[ DeptX ]}, SHUTDOWN)) ];
  departments_active_on := fun day =>
    if day <? 12000 then {[ DeptX; DeptY; DeptZ ]}
    else {[ "DHS"%string; DeptX; DeptY; DeptZ ]}
|}.

(** The first call for the unified tree in a process, the tree it returns
    and the class it leaves. *)
Definition first_call : result (gset (Interval string)) * Tree.t string :=
  Tree.initialize_tree Tree.initial.

Definition unified : gset (Interval string) :=
  match first_call.1 with
  | Ok tr => tr
  | Raise _ => ∅
  end.

Definition loaded : Tree.t string := first_call.2.

(** The two sub-trees of the loaded class. *)
Definition cr_tree : gset (Interval string) := default ∅ (Tree.cr_tree loaded).
Definition gap_tree : gset (Interval string) := default ∅ (Tree.gap_tree loaded).

(** The builders of the instance, before their build. *)
Definition cr_builder : CRTreeGrower.t string :=
  CRTreeGrower.mk DEPTS_SET CR_DEPARTMENTS ∅.

Definition gap_builder : AppropriationsGapsTreeGrower.t string :=
  AppropriationsGapsTreeGrower.mk ∅ APPROPRIATIONS_GAPS None.

(** A CR table with an entry in 1970 and one in 2000, and the range of the
    first days of 1970. *)
Definition early_table : CRMapType string :=
  [ ((0, 1), {[ DeptX ]}); ((11000, 11030), {[ DeptX ]}) ].

Definition early_range : option (PyVal * PyVal) := Some (VDate 0, VDate 5).

(** A CR table whose second entry ends before it starts. *)
Definition broken_table : CRMapType string :=
  [ ((11000, 11030), {[ DeptX ]}); ((11050, 11040), ∅);
    ((11100, 11130), {[ DeptY ]}) ].





(** The same builders after their build. *)
Definition cr_built : CRTreeGrower.t string :=
  (CRTreeGrower.grow_cr_tree cr_builder None None).2.

Definition gap_built : AppropriationsGapsTreeGrower.t string :=
  (AppropriationsGapsTreeGrower.grow_appropriation_gaps_tree
     gap_builder None None).2.

End Example.

(** ** What the claims speak about *)

Section notions.
Import intervaltree.
Context {Dept : Type} `{Countable Dept} `{!Constants Dept} `{Platform}.

(** The overlap check lets an entry with the inclusive day range
    [(start, end_)] through: [_get_overlap_interval] returns an overlap. *)
Definition overlaps (date_range : option (PyVal * PyVal))
    (start end_ : Z) : Prop :=
  ∃ overlap,
    _tree._get_overlap_interval start end_ date_range = Ok (Some overlap).

(** The same for a build restricted to [dates], whose range has to
    convert first. *)
Definition survives (dates : option (PyVal * PyVal)) (start end_ : Z) : Prop :=
  ∃ date_range,
    _tree.date_range_of dates = Ok date_range
    ∧ overlaps date_range start end_.

(** The interval that an entry of the CR table is stored as. *)
Definition cr_interval (item : (Z * Z) * gset Dept) : Interval Dept :=
  mkInterval item.1.1 (item.1.2 + 1)
    (_tree.CRTreeGrower.generated_departments item.1.2 item.2, CR_STATUS).

(** The interval that an entry of the gap table is stored as. *)
Definition gap_interval (item : (Z * Z) * (gset Dept * ShutdownFlag))
    : Interval Dept :=
  mkInterval item.1.1 (item.1.2 + 1)
    (item.2.1, _tree.AppropriationsGapsTreeGrower.gap_status item.2.2).

(** The days that the string converter tries, in its order: the ISO parse,
    then the four formats; a day counts when pandas can hold it. *)
Definition str_candidates (date_input : string) : list (option Z) :=
  date_fromisoformat date_input
  :: map (date_strptime date_input)
       ["%m/%d/%Y"; "%m-%d-%Y"; "%d/%m/%Y"; "%d-%m-%Y"]%string.

Definition holds_day (day : Z) : bool := (-106751 <=? day) && (day <=? 106751).

Fixpoint first_held (candidates : list (option Z)) : option Z :=
  match candidates with
  | [] => None
  | Some day :: rest => if holds_day day then Some day else first_held rest
  | None :: rest => first_held rest
  end.

(** Midnight of a day, without a time zone. *)
Definition midnight (day : Z) : Timestamp := mkTimestamp (86400 * day) None.

(** A stamp as [_stamp_date] leaves it: without a time zone, or in US
    Eastern time. *)
Definition normalized (t : Timestamp) : Prop :=
  ts_tz t = None ∨ ts_tz t = Some "America/New_York"%string.

(** The keys of a table are those of a dict: no key twice. *)
Definition distinct_keys {A : Type} (items : list ((Z * Z) * A)) : Prop :=
  NoDup (map fst items).

(** The overlap check as the spec words it (section 4.1, [clip]), on a
    range that is already in day offsets: no restriction without a range,
    "no overlap" for disjoint days, the intersection otherwise. *)
Definition clip_spec (start end_ : Z) (optional_range : option (Z * Z))
    : option (Z * Z) :=
  match optional_range with
  | None => Some (start, end_)
  | Some (range_start, range_end) =>
      if (end_ <? range_start) || (range_end <? start) then None
      else Some (Z.max start range_start, Z.min end_ range_end)
  end.

End notions.

(** * Properties *)

Section results.

Lemma rbind_Ok {A B : Type} (r : result A) (k : A -> result B) (b : B) :
  rbind r k = Ok b ↔ ∃ a, r = Ok a ∧ k a = Ok b.
Proof.
  destruct r as [a|e]; simpl; split.
  - eauto.
  - by intros (a' & [= <-] & ?).
  - done.
  - by intros (? & ? & ?).
Qed.

End results.

(** ** The interval tree *)

Section intervaltree_facts.
Import intervaltree.
Context {Dept : Type} `{Countable Dept}.
Implicit Types (t : gset (Interval Dept)) (iv : Interval Dept).

Lemma elem_of_at_ t p iv :
  iv ∈ at_ t p ↔ iv ∈ t ∧ begin iv <= p < end_ iv.
Proof. unfold at_. by rewrite elem_of_filter, (comm and). Qed.

Lemma at_union t1 t2 p : at_ (union t1 t2) p = at_ t1 p ∪ at_ t2 p.
Proof.
  apply set_eq; intros iv. unfold union.
  rewrite elem_of_union, !elem_of_at_, elem_of_union. tauto.
Qed.

Lemma truthy_true t : truthy t = true ↔ t ≠ ∅.
Proof. unfold truthy. apply bool_decide_eq_true. Qed.

Lemma truthy_empty : truthy (∅ : gset (Interval Dept)) = false.
Proof. unfold truthy. apply bool_decide_eq_false. intros Hne. by apply Hne. Qed.

Lemma truthy_false t : truthy t = false ↔ t = ∅.
Proof.
  unfold truthy. rewrite bool_decide_eq_false.
  split; [apply dec_stable | intros -> Hne; by apply Hne].
Qed.

(** A successful [addi] adds exactly the interval, which is then not
    null unless it was there before. *)
Lemma addi_Ok t b e d t' :
  addi t b e d = Ok t' →
  t' = {[ mkInterval b e d ]} ∪ t ∧ (mkInterval b e d ∈ t ∨ b < e).
Proof.
  unfold addi, is_null; simpl. case_decide as Hin.
  - intros [= <-]. split; [| by left].
    apply set_eq. intros x. rewrite elem_of_union, elem_of_singleton.
    split; [by right | by intros [-> | ?]].
  - destruct (e <=? b) eqn:Hnull; [done |].
    intros [= <-]. split; [done | right; lia].
Qed.

Lemma addi_total t b e d : b < e → ∃ t', addi t b e d = Ok t'.
Proof.
  intros Hlt. unfold addi, is_null; simpl. case_decide; [eauto |].
  destruct (e <=? b) eqn:Hnull; [lia | eauto].
Qed.

End intervaltree_facts.

(** ** The CR tree builder *)

Section cr_builder_facts.
Import intervaltree _tree _tree.CRTreeGrower.
Context {Dept : Type} `{Countable Dept} `{!Constants Dept} `{Platform}.
Implicit Types (tr : gset (Interval Dept)) (iv : Interval Dept).

Lemma cr_grow_step_Ok date_range tr item tr' :
  grow_step date_range tr item = Ok tr' →
  (overlaps date_range item.1.1 item.1.2
   ∧ tr' = {[ cr_interval item ]} ∪ tr
   ∧ (cr_interval item ∈ tr ∨ item.1.1 <= item.1.2))
  ∨ (_get_overlap_interval item.1.1 item.1.2 date_range = Ok None ∧ tr' = tr).
Proof.
  destruct item as [[start end_] departments]; simpl.
  intros (overlap & Hov & Hadd)%rbind_Ok.
  destruct overlap as [ov|].
  - left. apply addi_Ok in Hadd as [-> Hnn].
    split; [by exists ov |]. split; [done |].
    destruct Hnn; [by left | right; lia].
  - right. by injection Hadd as <-.
Qed.

(** The tree after a complete loop: what was there, and the intervals of
    the entries that overlap the range. *)
Lemma cr_grow_loop_Ok date_range items tr tr' :
  grow_loop date_range items tr = (Ok tt, tr') →
  ∀ iv, iv ∈ tr' ↔
    iv ∈ tr ∨ ∃ item, item ∈ items
               ∧ overlaps date_range item.1.1 item.1.2
               ∧ iv = cr_interval item.
Proof.
  revert tr. induction items as [|item rest IH]; intros tr; simpl.
  - intros [= <-] iv. split; [by left |].
    intros [? | (item & Hin & _)]; [done | by apply elem_of_nil in Hin].
  - destruct (grow_step date_range tr item) as [tr1|e] eqn:Hstep; [| done].
    intros Hloop iv. rewrite (IH _ Hloop iv).
    apply cr_grow_step_Ok in Hstep as [(Hov & -> & _) | (Hnone & ->)].
    + rewrite elem_of_union, elem_of_singleton. split.
      * intros [[-> | ?] | (it & Hin & ? & ?)].
        -- right. exists item. split; [left | done].
        -- by left.
        -- right. exists it. split; [by right | done].
      * intros [? | (it & Hin & Hovit & ->)]; [by left; right |].
        apply elem_of_cons in Hin as [-> | Hin]; [by left; left |].
        right. by exists it.
    + split.
      * intros [? | (it & Hin & ? & ?)]; [by left |].
        right. exists it. split; [by right | done].
      * intros [? | (it & Hin & Hovit & ->)]; [by left |].
        apply elem_of_cons in Hin as [-> | Hin].
        -- destruct Hovit as [ov Hovit]. congruence.
        -- right. by exists it.
Qed.

(** No null interval enters the tree. *)
Lemma cr_grow_loop_not_null date_range items tr tr' :
  grow_loop date_range items tr = (Ok tt, tr') →
  (∀ iv, iv ∈ tr → begin iv < end_ iv) →
  ∀ iv, iv ∈ tr' → begin iv < end_ iv.
Proof.
  revert tr. induction items as [|item rest IH]; intros tr; simpl.
  - by intros [= <-].
  - destruct (grow_step date_range tr item) as [tr1|e] eqn:Hstep; [| done].
    intros Hloop Htr. apply (IH _ Hloop).
    apply cr_grow_step_Ok in Hstep as [(_ & -> & Hnn) | (_ & ->)]; [| done].
    intros iv [->%elem_of_singleton | ?]%elem_of_union; [| by apply Htr].
    destruct Hnn as [Hin | Hle]; [by apply Htr | simpl; lia].
Qed.

(** The loop completes when every entry is a range. *)
Lemma cr_grow_loop_total items tr :
  (∀ item, item ∈ items → item.1.1 <= item.1.2) →
  ∃ tr', grow_loop None items tr = (Ok tt, tr').
Proof.
  revert tr. induction items as [|[[start end_] departments] rest IH];
    intros tr Hitems; simpl; [eauto |].
  destruct (addi_total tr start (end_ + 1)
              (generated_departments end_ departments, CR_STATUS)) as [tr1 ->].
  { specialize (Hitems ((start, end_), departments)). simpl in Hitems.
    assert (start <= end_) by (apply Hitems; left). lia. }
  apply IH. intros item Hin. apply Hitems. by right.
Qed.

(** [grow_cr_tree] on a builder whose tree is still empty. *)
Lemma grow_cr_tree_Ok self table dates tr self' :
  tree self = ∅ →
  grow_cr_tree self table dates = (Ok tr, self') →
  tree self' = tr
  ∧ (∀ iv, iv ∈ tr → begin iv < end_ iv)
  ∧ ∃ date_range, date_range_of dates = Ok date_range
      ∧ ∀ iv, iv ∈ tr ↔
          ∃ item, item ∈ default (cr_departments self) table
            ∧ overlaps date_range item.1.1 item.1.2
            ∧ iv = cr_interval item.
Proof.
  intros Hempty. unfold grow_cr_tree.
  rewrite Hempty, truthy_empty.
  destruct (date_range_of dates) as [date_range|e]; [| done].
  destruct (grow_loop _ _ _) as [[[]|e] tr1] eqn:Hloop; simpl; [| done].
  intros [= <- <-]. split; [done |]. split.
  - apply (cr_grow_loop_not_null _ _ _ _ Hloop). intros iv Hiv.
    by apply elem_of_empty in Hiv.
  - exists date_range. split; [done |]. intros iv.
    rewrite (cr_grow_loop_Ok _ _ _ _ Hloop iv). split.
    + intros [Hiv | ?]; [by apply elem_of_empty in Hiv | done].
    + by right.
Qed.

End cr_builder_facts.

(** ** The gap tree builder *)

Section gap_builder_facts.
Import intervaltree _tree _tree.AppropriationsGapsTreeGrower.
Context {Dept : Type} `{Countable Dept} `{!Constants Dept} `{Platform}.
Implicit Types (tr : gset (Interval Dept)) (iv : Interval Dept).

Lemma gap_grow_step_Ok date_range tr item tr' :
  grow_step date_range tr item = Ok tr' →
  (overlaps date_range item.1.1 item.1.2
   ∧ tr' = {[ gap_interval item ]} ∪ tr
   ∧ (gap_interval item ∈ tr ∨ item.1.1 <= item.1.2))
  ∨ (_get_overlap_interval item.1.1 item.1.2 date_range = Ok None ∧ tr' = tr).
Proof.
  destruct item as [[start end_] [departments shutdown]]; simpl.
  intros (overlap & Hov & Hadd)%rbind_Ok.
  destruct overlap as [ov|].
  - left. apply addi_Ok in Hadd as [-> Hnn].
    split; [by exists ov |]. split; [done |].
    destruct Hnn; [by left | right; lia].
  - right. by injection Hadd as <-.
Qed.

Lemma gap_grow_loop_Ok date_range items tr tr' :
  grow_loop date_range items tr = (Ok tt, tr') →
  ∀ iv, iv ∈ tr' ↔
    iv ∈ tr ∨ ∃ item, item ∈ items
               ∧ overlaps date_range item.1.1 item.1.2
               ∧ iv = gap_interval item.
Proof.
  revert tr. induction items as [|item rest IH]; intros tr; simpl.
  - intros [= <-] iv. split; [by left |].
    intros [? | (item & Hin & _)]; [done | by apply elem_of_nil in Hin].
  - destruct (grow_step date_range tr item) as [tr1|e] eqn:Hstep; [| done].
    intros Hloop iv. rewrite (IH _ Hloop iv).
    apply gap_grow_step_Ok in Hstep as [(Hov & -> & _) | (Hnone & ->)].
    + rewrite elem_of_union, elem_of_singleton. split.
      * intros [[-> | ?] | (it & Hin & ? & ?)].
        -- right. exists item. split; [left | done].
        -- by left.
        -- right. exists it. split; [by right | done].
      * intros [? | (it & Hin & Hovit & ->)]; [by left; right |].
        apply elem_of_cons in Hin as [-> | Hin]; [by left; left |].
        right. by exists it.
    + split.
      * intros [? | (it & Hin & ? & ?)]; [by left |].
        right. exists it. split; [by right | done].
      * intros [? | (it & Hin & Hovit & ->)]; [by left |].
        apply elem_of_cons in Hin as [-> | Hin].
        -- destruct Hovit as [ov Hovit]. congruence.
        -- right. by exists it.
Qed.

Lemma gap_grow_loop_not_null date_range items tr tr' :
  grow_loop date_range items tr = (Ok tt, tr') →
  (∀ iv, iv ∈ tr → begin iv < end_ iv) →
  ∀ iv, iv ∈ tr' → begin iv < end_ iv.
Proof.
  revert tr. induction items as [|item rest IH]; intros tr; simpl.
  - by intros [= <-].
  - destruct (grow_step date_range tr item) as [tr1|e] eqn:Hstep; [| done].
    intros Hloop Htr. apply (IH _ Hloop).
    apply gap_grow_step_Ok in Hstep as [(_ & -> & Hnn) | (_ & ->)]; [| done].
    intros iv [->%elem_of_singleton | ?]%elem_of_union; [| by apply Htr].
    destruct Hnn as [Hin | Hle]; [by apply Htr | simpl; lia].
Qed.

Lemma gap_grow_loop_total items tr :
  (∀ item, item ∈ items → item.1.1 <= item.1.2) →
  ∃ tr', grow_loop None items tr = (Ok tt, tr').
Proof.
  revert tr.
  induction items as [|[[start end_] [departments shutdown]] rest IH];
    intros tr Hitems; simpl; [eauto |].
  destruct (addi_total tr start (end_ + 1)
              (departments, gap_status shutdown)) as [tr1 ->].
  { specialize (Hitems ((start, end_), (departments, shutdown))).
    simpl in Hitems. assert (start <= end_) by (apply Hitems; left). lia. }
  apply IH. intros item Hin. apply Hitems. by right.
Qed.

(** [grow_appropriation_gaps_tree] on a builder whose tree is still
    empty. *)
Lemma grow_appropriation_gaps_tree_Ok self table dates tr self' :
  tree self = ∅ →
  grow_appropriation_gaps_tree self table dates = (Ok tr, self') →
  tree self' = tr
  ∧ (∀ iv, iv ∈ tr → begin iv < end_ iv)
  ∧ ∃ date_range, date_range_of dates = Ok date_range
      ∧ ∀ iv, iv ∈ tr ↔
          ∃ item, item ∈ default (appropriations_gaps self) table
            ∧ overlaps date_range item.1.1 item.1.2
            ∧ iv = gap_interval item.
Proof.
  intros Hempty. unfold grow_appropriation_gaps_tree.
  rewrite Hempty, truthy_empty.
  destruct (date_range_of dates) as [date_range|e]; [| done].
  destruct (grow_loop _ _ _) as [[[]|e] tr1] eqn:Hloop; simpl; [| done].
  intros [= <- <-]. split; [done |]. split.
  - apply (gap_grow_loop_not_null _ _ _ _ Hloop). intros iv Hiv.
    by apply elem_of_empty in Hiv.
  - exists date_range. split; [done |]. intros iv.
    rewrite (gap_grow_loop_Ok _ _ _ _ Hloop iv). split.
    + intros [Hiv | ?]; [by apply elem_of_empty in Hiv | done].
    + by right.
Qed.

End gap_builder_facts.

(** ** Stored intervals are half-open *)

Section half_open.
Import intervaltree _tree.
Context {Dept : Type} `{Countable Dept} `{!Constants Dept} `{Platform}.

(** C1. Both builders store the entry with the inclusive day range
    [(S, E)] as the half-open interval from [S] to [E + 1]: when a build
    on an empty tree returns and the entry passes the overlap check, the
    point query at day [S] and the one at day [E] return its interval, and
    the one at day [E + 1] does not.  The tree returned is the builder's
    own tree. *)
Theorem stored_interval_is_half_open :
  (∀ (self : CRTreeGrower.t Dept) table dates tr self' S E complement,
     CRTreeGrower.tree self = ∅ →
     CRTreeGrower.grow_cr_tree self table dates = (Ok tr, self') →
     ((S, E), complement) ∈ default (CRTreeGrower.cr_departments self) table →
     survives dates S E →
     let iv := cr_interval ((S, E), complement) in
     CRTreeGrower.tree self' = tr
     ∧ begin iv = S ∧ end_ iv = E + 1
     ∧ iv ∈ at_ tr S ∧ iv ∈ at_ tr E ∧ iv ∉ at_ tr (E + 1))
  ∧ (∀ (self : AppropriationsGapsTreeGrower.t Dept) table dates tr self'
       S E departments shutdown,
     AppropriationsGapsTreeGrower.tree self = ∅ →
     AppropriationsGapsTreeGrower.grow_appropriation_gaps_tree
       self table dates = (Ok tr, self') →
     ((S, E), (departments, shutdown))
       ∈ default (AppropriationsGapsTreeGrower.appropriations_gaps self) table →
     survives dates S E →
     let iv := gap_interval ((S, E), (departments, shutdown)) in
     AppropriationsGapsTreeGrower.tree self' = tr
     ∧ begin iv = S ∧ end_ iv = E + 1
     ∧ iv ∈ at_ tr S ∧ iv ∈ at_ tr E ∧ iv ∉ at_ tr (E + 1)).
Proof.
  split.
  - intros self table dates tr self' S E complement Hempty Hgrow Hin
      (date_range & Hrange & Hov) iv.
    destruct (grow_cr_tree_Ok _ _ _ _ _ Hempty Hgrow)
      as (Hself & Hnn & date_range' & Hrange' & Htr).
    assert (date_range' = date_range) as -> by congruence.
    assert (iv ∈ tr) as Hiv.
    { apply Htr. by exists ((S, E), complement). }
    pose proof (Hnn _ Hiv) as Hlt. subst iv. simpl in Hlt.
    rewrite !elem_of_at_. simpl. repeat split; try done; lia.
  - intros self table dates tr self' S E departments shutdown Hempty Hgrow Hin
      (date_range & Hrange & Hov) iv.
    destruct (grow_appropriation_gaps_tree_Ok _ _ _ _ _ Hempty Hgrow)
      as (Hself & Hnn & date_range' & Hrange' & Htr).
    assert (date_range' = date_range) as -> by congruence.
    assert (iv ∈ tr) as Hiv.
    { apply Htr. by exists ((S, E), (departments, shutdown)). }
    pose proof (Hnn _ Hiv) as Hlt. subst iv. simpl in Hlt.
    rewrite !elem_of_at_. simpl. repeat split; try done; lia.
Qed.

(** A build over the whole table returns when every entry is a range. *)
Lemma builders_return (cr_self : CRTreeGrower.t Dept)
    (gap_self : AppropriationsGapsTreeGrower.t Dept) :
  CRTreeGrower.tree cr_self = ∅ →
  AppropriationsGapsTreeGrower.tree gap_self = ∅ →
  (∀ item, item ∈ CRTreeGrower.cr_departments cr_self → item.1.1 <= item.1.2) →
  (∀ item, item ∈ AppropriationsGapsTreeGrower.appropriations_gaps gap_self →
           item.1.1 <= item.1.2) →
  (∃ tr self', CRTreeGrower.grow_cr_tree cr_self None None = (Ok tr, self'))
  ∧ (∃ tr self',
       AppropriationsGapsTreeGrower.grow_appropriation_gaps_tree
         gap_self None None = (Ok tr, self')).
Proof.
  intros Hcr Hgap Hcr_items Hgap_items. split.
  - unfold CRTreeGrower.grow_cr_tree. rewrite Hcr, truthy_empty. simpl.
    destruct (cr_grow_loop_total _ ∅ Hcr_items) as [tr ->]. simpl. eauto.
  - unfold AppropriationsGapsTreeGrower.grow_appropriation_gaps_tree.
    rewrite Hgap, truthy_empty. simpl.
    destruct (gap_grow_loop_total _ ∅ Hgap_items) as [tr ->]. simpl. eauto.
Qed.

End half_open.

Lemma stored_interval_is_half_open_witness :
  (∃ tr self',
     _tree.CRTreeGrower.grow_cr_tree Example.cr_builder None None = (Ok tr, self')
     ∧ cr_interval ((11000, 11030), {[ Example.DeptX ]}) ∈ intervaltree.at_ tr 11000
     ∧ cr_interval ((11000, 11030), {[ Example.DeptX ]}) ∈ intervaltree.at_ tr 11030
     ∧ cr_interval ((11000, 11030), {[ Example.DeptX ]}) ∉ intervaltree.at_ tr 11031)
  ∧ (∃ tr self',
     _tree.AppropriationsGapsTreeGrower.grow_appropriation_gaps_tree
       Example.gap_builder None None = (Ok tr, self')
     ∧ gap_interval ((11010, 11015), ({[ Example.DeptX ]}, SHUTDOWN))
         ∈ intervaltree.at_ tr 11010
     ∧ gap_interval ((11010, 11015), ({[ Example.DeptX ]}, SHUTDOWN))
         ∈ intervaltree.at_ tr 11015
     ∧ gap_interval ((11010, 11015), ({[ Example.DeptX ]}, SHUTDOWN))
         ∉ intervaltree.at_ tr 11016).
Proof.
  destruct (builders_return Example.cr_builder Example.gap_builder)
    as [(crt & cr' & Hcr) (gt & gap' & Hgap)]; [done | done | | |].
  { intros item [-> | Hin]%elem_of_cons; [simpl; lia | by apply elem_of_nil in Hin]. }
  { intros item [-> | Hin]%elem_of_cons; [simpl; lia | by apply elem_of_nil in Hin]. }
  destruct stored_interval_is_half_open as [Hcr_claim Hgap_claim]. split.
  - exists crt, cr'. split; [exact Hcr |].
    destruct (Hcr_claim Example.cr_builder None None crt cr' 11000 11030
                {[ Example.DeptX ]} eq_refl Hcr) as (_ & _ & _ & HS & HE & HE1).
    + left.
    + exists None. split; [reflexivity |]. exists (11000, 11030). reflexivity.
    + auto.
  - exists gt, gap'. split; [exact Hgap |].
    destruct (Hgap_claim Example.gap_builder None None gt gap' 11010 11015
                {[ Example.DeptX ]} SHUTDOWN eq_refl Hgap)
      as (_ & _ & _ & HS & HE & HE1).
    + left.
    + exists None. split; [reflexivity |]. exists (11010, 11015). reflexivity.
    + auto.
Defined.


(** ** The departments of a CR interval *)

Section cr_departments.
Import intervaltree _tree.
Context {Dept : Type} `{Countable Dept} `{!Constants Dept} `{Platform}.

(** C3. When a CR build on an empty tree returns, the interval stored for
    an entry [((S, E), complement)] that passes the overlap check carries
    the full department set minus [complement], and minus DHS too when [E]
    is before the day DHS was formed; the tree holds no other intervals, so
    DHS is in no stored interval that ends before that day, whatever the
    complement set says. *)
Theorem cr_interval_departments :
  ∀ (self : CRTreeGrower.t Dept) table dates tr self',
    CRTreeGrower.tree self = ∅ →
    CRTreeGrower.grow_cr_tree self table dates = (Ok tr, self') →
    let stored (E : Z) (complement : gset Dept) : gset Dept :=
      if decide (E < DHS_FORMED)
      then (DEPTS_SET ∖ complement) ∖ {[ DHS ]}
      else DEPTS_SET ∖ complement in
    (∀ S E complement,
       ((S, E), complement) ∈ default (CRTreeGrower.cr_departments self) table →
       survives dates S E →
       mkInterval S (E + 1) (stored E complement, CR_STATUS) ∈ tr)
    ∧ (∀ iv, iv ∈ tr →
         ∃ S E complement,
           ((S, E), complement) ∈ default (CRTreeGrower.cr_departments self) table
           ∧ survives dates S E
           ∧ iv = mkInterval S (E + 1) (stored E complement, CR_STATUS))
    ∧ (∀ iv, iv ∈ tr → end_ iv - 1 < DHS_FORMED → DHS ∉ (data iv).1).
Proof.
  intros self table dates tr self' Hempty Hgrow stored.
  destruct (grow_cr_tree_Ok _ _ _ _ _ Hempty Hgrow)
    as (_ & _ & date_range & Hrange & Htr).
  assert (Hstored : ∀ S E complement,
    cr_interval ((S, E), complement)
    = mkInterval S (E + 1) (stored E complement, CR_STATUS)).
  { intros S E complement. unfold cr_interval, stored,
      CRTreeGrower.generated_departments,
      CRTreeGrower._filter_cr_department_sets; simpl.
    case_decide as Hlt.
    - by apply Z.ltb_lt in Hlt as ->.
    - by apply Z.ltb_nlt in Hlt as ->. }
  assert (Hall : ∀ iv, iv ∈ tr →
    ∃ S E complement,
      ((S, E), complement) ∈ default (CRTreeGrower.cr_departments self) table
      ∧ survives dates S E
      ∧ iv = mkInterval S (E + 1) (stored E complement, CR_STATUS)).
  { intros iv (item & Hin & Hov & ->)%Htr.
    destruct item as [[S E] complement]. exists S, E, complement.
    split; [done |]. split; [by exists date_range |]. apply Hstored. }
  split; [| split; [exact Hall |]].
  - intros S E complement Hin (date_range' & Hrange' & Hov).
    assert (date_range' = date_range) as -> by congruence.
    rewrite <- Hstored. apply Htr. by exists ((S, E), complement).
  - intros iv (S & E & complement & _ & _ & ->)%Hall. simpl. intros Hend.
    unfold stored. rewrite decide_True by lia.
    rewrite elem_of_difference, elem_of_singleton. tauto.
Qed.

End cr_departments.

Lemma cr_interval_departments_witness :
  ∃ tr self',
    _tree.CRTreeGrower.grow_cr_tree Example.cr_builder None None = (Ok tr, self')
    ∧ intervaltree.mkInterval 11000 11031
        (({[ "DHS"%string; Example.DeptX; Example.DeptY; Example.DeptZ ]}
            ∖ {[ Example.DeptX ]}) ∖ {[ "DHS"%string ]}, CR_STATUS) ∈ tr
    ∧ ∀ iv, iv ∈ tr → intervaltree.end_ iv - 1 < 12000 →
        "DHS"%string ∉ (intervaltree.data iv).1.
Proof.
  destruct (builders_return Example.cr_builder Example.gap_builder)
    as [(crt & cr' & Hcr) _]; [done | done | | |].
  { intros item [-> | Hin]%elem_of_cons; [simpl; lia | by apply elem_of_nil in Hin]. }
  { intros item [-> | Hin]%elem_of_cons; [simpl; lia | by apply elem_of_nil in Hin]. }
  exists crt, cr'. split; [exact Hcr |].
  destruct (cr_interval_departments Example.cr_builder None None crt cr'
              eq_refl Hcr) as (Hstored & _ & HDHS).
  split; [| exact HDHS].
  apply (Hstored 11000 11030 {[ Example.DeptX ]}).
  - left.
  - exists None. split; [reflexivity |]. exists (11000, 11030). reflexivity.
Defined.


(** ** The resolver *)

Section resolver_facts.
Import intervaltree time_utils _dept_status.
Context {Dept : Type} `{Countable Dept} `{!Constants Dept} `{Platform}.
Implicit Types (matched : gset (Interval Dept)) (iv : Interval Dept).

Lemma elem_of_statuses_for matched dept st :
  st ∈ statuses_for matched dept ↔
  ∃ iv, iv ∈ matched ∧ dept ∈ (data iv).1 ∧ (data iv).2 = st.
Proof.
  unfold statuses_for. rewrite elem_of_map. split.
  - intros (iv & -> & [Hd Hin]%elem_of_filter). by exists iv.
  - intros (iv & Hin & Hd & <-). exists iv. split; [done |].
    by apply elem_of_filter.
Qed.

(** A department that no matched record affects keeps its entry. *)
Lemma overwrite_uncovered matched dept entry :
  (∀ iv, iv ∈ matched → dept ∉ (data iv).1) →
  overwrite matched dept entry = entry.
Proof.
  intros Hnone. unfold overwrite.
  destruct (elements (statuses_for matched dept)) as [|st rest] eqn:Hel; [done |].
  assert (st ∈ statuses_for matched dept) as (iv & Hin & Hd & _)%elem_of_statuses_for.
  { apply elem_of_elements. rewrite Hel. left. }
  by destruct (Hnone iv Hin).
Qed.

(** Without a conflict, a department takes the status of any matched record
    that affects it. *)
Lemma overwrite_covered matched dept entry iv :
  ¬ conflicting matched →
  iv ∈ matched → dept ∈ (data iv).1 →
  overwrite matched dept entry = (data iv).2.
Proof.
  intros Hnc Hin Hd. unfold overwrite.
  destruct (elements (statuses_for matched dept)) as [|st rest] eqn:Hel.
  - assert ((data iv).2 ∈ statuses_for matched dept) as Hst.
    { apply elem_of_statuses_for. by exists iv. }
    apply elem_of_elements in Hst. rewrite Hel in Hst.
    by apply elem_of_nil in Hst.
  - assert (st ∈ statuses_for matched dept)
      as (iv' & Hin' & Hd' & Hst)%elem_of_statuses_for.
    { apply elem_of_elements. rewrite Hel. left. }
    destruct (decide (st = (data iv).2)) as [-> | Hne]; [done |].
    destruct Hnc. exists iv'. split; [done |]. exists iv. split; [done |].
    split; [congruence |].
    intros Hempty. apply (not_elem_of_empty (C:=gset Dept) dept).
    rewrite <- Hempty. by apply elem_of_intersection.
Qed.

(** The unfiltered resolution, entry by entry. *)
Lemma resolve_all tree date t :
  to_timestamp date = Ok t →
  let day := pdtimestamp_to_posix_day t in
  ¬ conflicting (at_ tree day) →
  ∃ m, resolve tree date None = Ok m
    ∧ ∀ dept, m !! dept =
        if decide (dept ∈ departments_active_on day)
        then Some (overwrite (at_ tree day) dept (default_status day))
        else None.
Proof.
  intros Hts day Hnc. unfold resolve. rewrite Hts. simpl.
  fold day. rewrite decide_False by done.
  eexists. split; [done |]. intros dept.
  rewrite map_lookup_imap, lookup_gset_to_gmap.
  case_decide as Hact.
  - by rewrite option_guard_True.
  - by rewrite option_guard_False.
Qed.

(** The resolution for one department. *)
Lemma resolve_one tree date t dept :
  to_timestamp date = Ok t →
  let day := pdtimestamp_to_posix_day t in
  ¬ conflicting (at_ tree day) →
  dept ∈ departments_active_on day →
  resolve tree date (Some {[ dept ]})
  = Ok {[ dept := overwrite (at_ tree day) dept (default_status day) ]}.
Proof.
  intros Hts day Hnc Hact. unfold resolve. rewrite Hts. simpl.
  fold day. rewrite decide_False by done. f_equal.
  apply map_eq. intros d.
  destruct (decide (d = dept)) as [-> | Hne].
  - rewrite lookup_singleton_eq.
    apply map_lookup_filter_Some. split; [| simpl; by apply elem_of_singleton].
    rewrite map_lookup_imap, lookup_gset_to_gmap.
    by rewrite option_guard_True.
  - rewrite lookup_singleton_ne by done.
    apply map_lookup_filter_None. right. intros st _. simpl.
    by rewrite elem_of_singleton.
Qed.

End resolver_facts.


(** ** Departments without an exception interval *)

Section defaults.
Import intervaltree time_utils _dept_status fedstamp.
Context {Dept : Type} `{Countable Dept} `{!Constants Dept} `{Platform}.

(** What [get_departments_by_status] selects from a cache: before the
    CR-data cutoff both "DEFAULT_STATUS" and "CR_STATUS" select the
    departments at the cutoff default. *)
Lemma get_departments_by_status_default (self : FedStamp Dept) t cache :
  pdtimestamp self = Some t →
  _status_cache self = Some cache →
  get_departments_by_status self "DEFAULT_STATUS"
  = Ok (filter (fun kv => kv.2 = default_status (pdtimestamp_to_posix_day t)) cache).
Proof.
  intros Ht Hcache. unfold get_departments_by_status, posix_day, default_status.
  rewrite Ht, Hcache. simpl.
  by destruct (pdtimestamp_to_posix_day t <? CR_DATA_CUTOFF_DATE).
Qed.

(** C2. A department [D] that is active on day [T] and that no stored
    interval covering [T] affects resolves to CR_DATA_CUTOFF_DEFAULT when
    [T] is strictly before the CR-data cutoff day and to DEFAULT from the
    cutoff day on; a stamp of that day whose cache is this resolution lists
    [D] among the departments at "DEFAULT_STATUS". *)
Theorem uncovered_department_resolves_to_default :
  ∀ (tree : gset (Interval Dept)) date t D,
    to_timestamp date = Ok t →
    let T := pdtimestamp_to_posix_day t in
    D ∈ departments_active_on T →
    (∀ iv, iv ∈ at_ tree T → D ∉ (data iv).1) →
    ¬ conflicting (at_ tree T) →
    (T < CR_DATA_CUTOFF_DATE →
       resolve tree date (Some {[ D ]})
       = Ok {[ D := CR_DATA_CUTOFF_DEFAULT_STATUS ]})
    ∧ (CR_DATA_CUTOFF_DATE <= T →
       resolve tree date (Some {[ D ]}) = Ok {[ D := DEFAULT_STATUS ]})
    ∧ (∀ m, resolve tree date (Some {[ D ]}) = Ok m →
         get_departments_by_status (mkFedStamp (Some t) (Some m)) "DEFAULT_STATUS"
         = Ok m).
Proof.
  intros tree date t D Hts T Hact Hnone Hnc.
  pose proof (resolve_one tree date t D Hts Hnc Hact) as Hres.
  fold T in Hres. rewrite (overwrite_uncovered _ _ _ Hnone) in Hres.
  rewrite Hres. unfold default_status in *.
  split; [| split].
  - intros Hlt. by apply Z.ltb_lt in Hlt as ->.
  - intros Hge. by apply Z.ltb_ge in Hge as ->.
  - intros m [= <-].
    erewrite get_departments_by_status_default by reflexivity.
    f_equal. unfold default_status. fold T.
    apply map_filter_id. intros d st [-> <-]%lookup_singleton_Some. done.
Qed.

End defaults.

(** A decidable statement about the instance, settled by evaluation. *)
Ltac by_evaluation := apply (bool_decide_unpack _); vm_compute; exact I.

Lemma uncovered_department_resolves_to_default_witness :
  _dept_status.resolve Example.unified (VDate 9000) (Some {[ Example.DeptY ]})
  = Ok {[ Example.DeptY := CR_DATA_CUTOFF_DEFAULT_STATUS ]}
  ∧ _dept_status.resolve Example.unified (VDate 11020) (Some {[ Example.DeptX ]})
    = Ok {[ Example.DeptX := DEFAULT_STATUS ]}.
Proof.
  split.
  - destruct (uncovered_department_resolves_to_default Example.unified
                (VDate 9000) (mkTimestamp (86400 * 9000) None) Example.DeptY
                eq_refl) as (Hbefore & _ & _).
    + by_evaluation.
    + change (set_Forall (fun iv => Example.DeptY ∉ (intervaltree.data iv).1)
                (intervaltree.at_ Example.unified 9000)).
      by_evaluation.
    + by_evaluation.
    + apply Hbefore. reflexivity.
  - destruct (uncovered_department_resolves_to_default Example.unified
                (VDate 11020) (mkTimestamp (86400 * 11020) None) Example.DeptX
                eq_refl) as (_ & Hafter & _).
    + by_evaluation.
    + change (set_Forall (fun iv => Example.DeptX ∉ (intervaltree.data iv).1)
                (intervaltree.at_ Example.unified 11020)).
      by_evaluation.
    + by_evaluation.
    + apply Hafter. discriminate.
Defined.


(** ** The unified tree *)

Section tree_facts.
Import intervaltree _tree _tree.Tree.
Context {Dept : Type} `{Countable Dept} `{!Constants Dept} `{Platform}.
Implicit Types (cls : Tree.t Dept) (tr crt gt : gset (Interval Dept)).
Implicit Types (attr cached : option (gset (Interval Dept))).

Lemma if_true_Some attr tr :
  if_true attr = Some tr ↔ attr = Some tr ∧ tr ≠ ∅.
Proof.
  unfold if_true. destruct attr as [tr0|].
  - destruct (truthy tr0) eqn:Htruthy.
    + apply truthy_true in Htruthy. split.
      * by intros [= <-].
      * by intros [[= <-] _].
    + apply truthy_false in Htruthy. split; [done |].
      intros [[= <-] Hne]. by destruct Hne.
  - split; [done | by intros [? _]].
Qed.

Lemma if_true_None attr :
  if_true attr = None ↔ attr = None ∨ attr = Some ∅.
Proof.
  unfold if_true. destruct attr as [tr0|].
  - destruct (truthy tr0) eqn:Htruthy.
    + apply truthy_true in Htruthy. split; [done |].
      intros [? | [= ->]]; [done | by destruct Htruthy].
    + apply truthy_false in Htruthy as ->. split; [by right | done].
  - split; [by left | done].
Qed.

(** A sub-tree attribute that was filled from its builder is filled with
    the same tree again. *)
Lemma refill attr tr0 :
  let tr := match if_true attr with Some tr => tr | None => tr0 end in
  match if_true (Some tr) with Some tr' => tr' | None => tr0 end = tr.
Proof.
  simpl. destruct (if_true attr) as [tr|] eqn:Hattr.
  - apply if_true_Some in Hattr as [_ Hne].
    unfold if_true. by apply truthy_true in Hne as ->.
  - unfold if_true. destruct (truthy tr0) eqn:Htruthy; [done |].
    by apply truthy_false in Htruthy.
Qed.

(** The shape of a call that does not find a cached tree. *)
Lemma initialize_tree_builds cls tr cls' :
  if_true (tree cls) = None →
  initialize_tree cls = (Ok tr, cls') →
  ∃ ci gi,
    (cr_instance cls = Some ci
     ∨ cr_instance cls = None ∧ CRTreeGrower.new = Ok ci)
    ∧ (gap_instance cls = Some gi
       ∨ gap_instance cls = None ∧ AppropriationsGapsTreeGrower.new = Ok gi)
    ∧ let crt := match if_true (cr_tree cls) with
                 | Some tr => tr | None => CRTreeGrower.tree ci end in
      let gt := match if_true (gap_tree cls) with
                | Some tr => tr
                | None => AppropriationsGapsTreeGrower.tree gi end in
      tr = crt ∪ gt
      ∧ cls' = mk (Some gi) (Some ci) (Some crt) (Some gt) (tree cls).
Proof.
  intros Hcache. unfold initialize_tree. rewrite Hcache. simpl.
  unfold _initialize_cr_tree, _initialize_gap_tree.
  destruct (cr_instance cls) as [ci|] eqn:Hci.
  - destruct (gap_instance cls) as [gi|] eqn:Hgi.
    + intros [= <- <-]. exists ci, gi. auto.
    + destruct AppropriationsGapsTreeGrower.new as [gi|e] eqn:Hnew; [| done].
      intros [= <- <-]. exists ci, gi. auto.
  - destruct CRTreeGrower.new as [ci|e] eqn:Hcnew; [| done].
    destruct (gap_instance cls) as [gi|] eqn:Hgi.
    + intros [= <- <-]. exists ci, gi. auto.
    + destruct AppropriationsGapsTreeGrower.new as [gi|e] eqn:Hnew; [| done].
      intros [= <- <-]. exists ci, gi. auto.
Qed.

(** A class whose instances and sub-trees are set builds the same union
    again when no tree is cached, and stays as it is. *)
Lemma initialize_tree_again gi ci crt gt cached :
  if_true cached = None →
  match if_true (Some crt) with
  | Some tr => tr | None => CRTreeGrower.tree ci end = crt →
  match if_true (Some gt) with
  | Some tr => tr | None => AppropriationsGapsTreeGrower.tree gi end = gt →
  initialize_tree (mk (Some gi) (Some ci) (Some crt) (Some gt) cached)
  = (Ok (crt ∪ gt), mk (Some gi) (Some ci) (Some crt) (Some gt) cached).
Proof.
  intros Hcache Hcrt Hgt. unfold initialize_tree.
  cbn [gap_instance cr_instance cr_tree gap_tree tree].
  rewrite Hcache. unfold union. by rewrite Hcrt, Hgt.
Qed.

Lemma initialize_tree_idempotent cls tr cls' :
  initialize_tree cls = (Ok tr, cls') →
  initialize_tree cls' = (Ok tr, cls').
Proof.
  intros Hinit. destruct (if_true (tree cls)) as [tr0|] eqn:Hcache.
  - unfold initialize_tree in Hinit. rewrite Hcache in Hinit.
    injection Hinit as <- <-. unfold initialize_tree. by rewrite Hcache.
  - destruct (initialize_tree_builds _ _ _ Hcache Hinit)
      as (ci & gi & _ & _ & -> & ->).
    apply initialize_tree_again; [done | apply refill | apply refill].
Qed.

Lemma new_idempotent cls cls1 :
  Tree.new cls = (Ok tt, cls1) →
  Tree.new cls1 = (Ok tt, cls1)
  ∧ ∃ tr, tree cls1 = Some tr ∧ initialize_tree cls1 = (Ok tr, cls1).
Proof.
  unfold Tree.new at 1.
  destruct (initialize_tree cls) as [[tr|e] cls'] eqn:Hinit; [| done].
  intros [= <-].
  assert (Hagain : initialize_tree
            (mk (gap_instance cls') (cr_instance cls') (cr_tree cls')
                (gap_tree cls') (Some tr))
          = (Ok tr, mk (gap_instance cls') (cr_instance cls') (cr_tree cls')
                       (gap_tree cls') (Some tr))).
  { destruct (decide (tr = ∅)) as [-> | Hne].
    - destruct (if_true (tree cls)) as [tr0|] eqn:Hcache.
      + unfold initialize_tree in Hinit. rewrite Hcache in Hinit.
        injection Hinit as -> <-. by apply if_true_Some in Hcache as [_ ?].
      + destruct (initialize_tree_builds _ _ _ Hcache Hinit)
          as (ci & gi & _ & _ & Htr & ->). simpl. rewrite Htr.
        apply initialize_tree_again;
          [apply if_true_None; right; by rewrite Htr | apply refill | apply refill].
    - unfold initialize_tree.
      cbn [gap_instance cr_instance cr_tree gap_tree tree].
      assert (if_true (Some tr) = Some tr) as -> by by apply if_true_Some.
      done. }
  split.
  - unfold Tree.new. by rewrite Hagain.
  - by exists tr.
Qed.

(** The first call in a process. *)
Lemma initialize_tree_initial tr cls' :
  initialize_tree initial = (Ok tr, cls') →
  ∃ ci gi,
    CRTreeGrower.new = Ok ci ∧ AppropriationsGapsTreeGrower.new = Ok gi
    ∧ tr = CRTreeGrower.tree ci ∪ AppropriationsGapsTreeGrower.tree gi
    ∧ cls' = mk (Some gi) (Some ci) (Some (CRTreeGrower.tree ci))
                (Some (AppropriationsGapsTreeGrower.tree gi)) None.
Proof.
  intros Hinit.
  destruct (initialize_tree_builds initial tr cls' eq_refl Hinit)
    as (ci & gi & [Hci | [_ Hci]] & [Hgi | [_ Hgi]] & Htr & Hcls);
    try discriminate.
  by exists ci, gi.
Qed.

(** The trees of freshly constructed builders. *)
Lemma cr_new_Ok ci :
  CRTreeGrower.new = Ok ci →
  ∀ iv, iv ∈ CRTreeGrower.tree ci ↔
    ∃ item, item ∈ CR_DEPARTMENTS ∧ iv = cr_interval item.
Proof.
  unfold CRTreeGrower.new, CRTreeGrower.__attrs_post_init__.
  destruct (CRTreeGrower.grow_cr_tree _ None None) as [[tr|e] self'] eqn:Hgrow;
    [| done].
  intros [= <-]. simpl.
  destruct (grow_cr_tree_Ok (CRTreeGrower.mk DEPTS_SET CR_DEPARTMENTS ∅)
              _ _ _ _ eq_refl Hgrow) as (_ & _ & date_range & [= <-] & Htr).
  intros iv. rewrite Htr. simpl. split.
  - intros (item & ? & _ & ?). by exists item.
  - intros (item & ? & ?). exists item. split; [done |]. split; [| done].
    by exists (item.1.1, item.1.2).
Qed.

Lemma gap_new_Ok gi :
  AppropriationsGapsTreeGrower.new = Ok gi →
  ∀ iv, iv ∈ AppropriationsGapsTreeGrower.tree gi ↔
    ∃ item, item ∈ APPROPRIATIONS_GAPS ∧ iv = gap_interval item.
Proof.
  unfold AppropriationsGapsTreeGrower.new,
    AppropriationsGapsTreeGrower.__attrs_post_init__.
  destruct (AppropriationsGapsTreeGrower.grow_appropriation_gaps_tree _ None None)
    as [[tr|e] self'] eqn:Hgrow; [| done].
  intros [= <-]. simpl.
  destruct (grow_appropriation_gaps_tree_Ok
              (AppropriationsGapsTreeGrower.mk ∅ APPROPRIATIONS_GAPS None)
              _ _ _ _ eq_refl Hgrow) as (_ & _ & date_range & [= <-] & Htr).
  intros iv. rewrite Htr. simpl. split.
  - intros (item & ? & _ & ?). by exists item.
  - intros (item & ? & ?). exists item. split; [done |]. split; [| done].
    by exists (item.1.1, item.1.2).
Qed.

(** The first call returns when every entry of both tables is a range. *)
Lemma initialize_tree_returns :
  (∀ item, item ∈ CR_DEPARTMENTS → item.1.1 <= item.1.2) →
  (∀ item, item ∈ APPROPRIATIONS_GAPS → item.1.1 <= item.1.2) →
  ∃ tr cls', initialize_tree initial = (Ok tr, cls').
Proof.
  intros Hcr Hgap.
  destruct (builders_return (CRTreeGrower.mk DEPTS_SET CR_DEPARTMENTS ∅)
              (AppropriationsGapsTreeGrower.mk ∅ APPROPRIATIONS_GAPS None)
              eq_refl eq_refl Hcr Hgap)
    as [(crt & cr' & Hcrt) (gt & gap' & Hgt)].
  assert (∃ ci, CRTreeGrower.new = Ok ci) as [ci Hci].
  { unfold CRTreeGrower.new, CRTreeGrower.__attrs_post_init__.
    destruct (CRTreeGrower.grow_cr_tree _ None None) as [[tr|e] self'] eqn:Hg.
    - simpl. eauto.
    - discriminate Hcrt. }
  assert (∃ gi, AppropriationsGapsTreeGrower.new = Ok gi) as [gi Hgi].
  { unfold AppropriationsGapsTreeGrower.new,
      AppropriationsGapsTreeGrower.__attrs_post_init__.
    destruct (AppropriationsGapsTreeGrower.grow_appropriation_gaps_tree _ None None)
      as [[tr|e] self'] eqn:Hg.
    - simpl. eauto.
    - discriminate Hgt. }
  unfold initialize_tree, initial, _initialize_cr_tree, _initialize_gap_tree.
  cbn [gap_instance cr_instance cr_tree gap_tree tree if_true].
  do 2 eexists.
  rewrite Hci. cbn [gap_instance cr_instance cr_tree gap_tree tree if_true].
  rewrite Hgi. reflexivity.
Qed.

End tree_facts.

(** The first call of the instance returns. *)
Lemma example_first_call :
  _tree.Tree.initialize_tree _tree.Tree.initial = (Ok Example.unified, Example.loaded).
Proof.
  destruct (initialize_tree_returns (Dept:=string)) as (tr & cls' & Hinit).
  { intros item [-> | Hin]%elem_of_cons; [simpl; lia | by apply elem_of_nil in Hin]. }
  { intros item [-> | Hin]%elem_of_cons; [simpl; lia | by apply elem_of_nil in Hin]. }
  unfold Example.unified, Example.loaded, Example.first_call.
  by rewrite Hinit.
Qed.

Section union.
Import intervaltree time_utils _tree _dept_status.
Context {Dept : Type} `{Countable Dept} `{!Constants Dept} `{Platform}.

(** C4. The tree that the first call returns is the union of the CR tree
    and the gap tree that the call leaves in the class: an interval is in it
    exactly when it is in one of the two, none is merged, and a point query
    returns the matches of both.  Hence on a day that a CR interval with
    departments [A] and [B] and a gap interval with department [C] cover,
    one resolution gives [A] and [B] the CR status and [C] the status of the
    gap interval (gap or shutdown), the three being active and the matched
    records free of conflict. *)
Theorem unified_tree_is_union :
  ∀ tr cls',
    Tree.initialize_tree Tree.initial = (Ok tr, cls') →
    ∃ crt gt,
      Tree.cr_tree cls' = Some crt ∧ Tree.gap_tree cls' = Some gt
      ∧ (∀ iv, iv ∈ tr ↔ iv ∈ crt ∨ iv ∈ gt)
      ∧ (∀ day iv, iv ∈ at_ tr day ↔ iv ∈ at_ crt day ∨ iv ∈ at_ gt day)
      ∧ ∀ date t ivc ivg A B C,
          to_timestamp date = Ok t →
          let day := pdtimestamp_to_posix_day t in
          ivc ∈ at_ crt day → ivg ∈ at_ gt day →
          A ∈ (data ivc).1 → B ∈ (data ivc).1 → C ∈ (data ivg).1 →
          A ∈ departments_active_on day →
          B ∈ departments_active_on day →
          C ∈ departments_active_on day →
          ¬ conflicting (at_ tr day) →
          ∃ m, resolve tr date None = Ok m
            ∧ m !! A = Some CR_STATUS ∧ m !! B = Some CR_STATUS
            ∧ m !! C = Some (data ivg).2
            ∧ ((data ivg).2 = GAP_STATUS ∨ (data ivg).2 = SHUTDOWN_STATUS).
Proof.
  intros tr cls' Hinit.
  destruct (initialize_tree_initial _ _ Hinit) as (ci & gi & Hci & Hgi & -> & ->).
  exists (CRTreeGrower.tree ci), (AppropriationsGapsTreeGrower.tree gi).
  assert (Hat : ∀ day iv,
    iv ∈ at_ (CRTreeGrower.tree ci ∪ AppropriationsGapsTreeGrower.tree gi) day
    ↔ iv ∈ at_ (CRTreeGrower.tree ci) day
      ∨ iv ∈ at_ (AppropriationsGapsTreeGrower.tree gi) day).
  { intros day iv. rewrite !elem_of_at_, elem_of_union. tauto. }
  split; [done |]. split; [done |]. split; [intros iv; apply elem_of_union |].
  split; [exact Hat |].
  intros date t ivc ivg A B C Hts day Hivc Hivg HA HB HC HAact HBact HCact Hnc.
  destruct (resolve_all _ date t Hts Hnc) as (m & Hres & Hm). fold day in Hm.
  exists m. split; [exact Hres |].
  assert (Hcr_status : (data ivc).2 = CR_STATUS).
  { apply elem_of_at_ in Hivc as [Hin _].
    by apply (cr_new_Ok _ Hci) in Hin as (item & _ & ->). }
  assert (Hgap_status :
    (data ivg).2 = GAP_STATUS ∨ (data ivg).2 = SHUTDOWN_STATUS).
  { apply elem_of_at_ in Hivg as [Hin _].
    apply (gap_new_Ok _ Hgi) in Hin as (item & _ & ->). simpl.
    unfold AppropriationsGapsTreeGrower.gap_status. case_decide; auto. }
  assert (Hc : ivc ∈ at_ (CRTreeGrower.tree ci
                           ∪ AppropriationsGapsTreeGrower.tree gi) day)
    by (apply Hat; by left).
  assert (Hg : ivg ∈ at_ (CRTreeGrower.tree ci
                           ∪ AppropriationsGapsTreeGrower.tree gi) day)
    by (apply Hat; by right).
  rewrite !Hm, !decide_True by done.
  rewrite (overwrite_covered _ A _ ivc Hnc Hc HA).
  rewrite (overwrite_covered _ B _ ivc Hnc Hc HB).
  rewrite (overwrite_covered _ C _ ivg Hnc Hg HC).
  by rewrite Hcr_status.
Qed.

End union.

Lemma unified_tree_is_union_witness :
  ∃ m, _dept_status.resolve Example.unified (VDate 11012) None = Ok m
    ∧ m !! Example.DeptY = Some CR_STATUS
    ∧ m !! Example.DeptZ = Some CR_STATUS
    ∧ m !! Example.DeptX = Some SHUTDOWN_STATUS.
Proof.
  destruct (unified_tree_is_union Example.unified Example.loaded example_first_call)
    as (crt & gt & Hcrt & Hgt & _ & _ & Hres).
  assert (crt = Example.cr_tree) as ->
    by (unfold Example.cr_tree; by rewrite Hcrt).
  assert (gt = Example.gap_tree) as ->
    by (unfold Example.gap_tree; by rewrite Hgt).
  destruct (Hres (VDate 11012) (mkTimestamp (86400 * 11012) None)
              (cr_interval ((11000, 11030), {[ Example.DeptX ]}))
              (gap_interval ((11010, 11015), ({[ Example.DeptX ]}, SHUTDOWN)))
              Example.DeptY Example.DeptZ Example.DeptX eq_refl)
    as (m & Hm & HY & HZ & HX & _); try by_evaluation.
  exists m. auto.
Defined.


(** ** Building twice *)

Section idempotence.
Import intervaltree _tree.
Context {Dept : Type} `{Countable Dept} `{!Constants Dept} `{Platform}.

(** C5. A builder whose tree is populated returns that tree from its grow
    method, whatever the arguments, and stays as it is; a second request
    for the unified tree, through the class method or through the
    constructor, returns the tree of the first request and leaves the class,
    its builders and its cached trees as they are; the tree is a set, it
    lists no interval twice. *)
Theorem build_is_idempotent :
  (∀ (self : CRTreeGrower.t Dept) table dates,
     CRTreeGrower.tree self ≠ ∅ →
     CRTreeGrower.grow_cr_tree self table dates
     = (Ok (CRTreeGrower.tree self), self))
  ∧ (∀ (self : AppropriationsGapsTreeGrower.t Dept) table dates,
     AppropriationsGapsTreeGrower.tree self ≠ ∅ →
     AppropriationsGapsTreeGrower.grow_appropriation_gaps_tree self table dates
     = (Ok (AppropriationsGapsTreeGrower.tree self), self))
  ∧ (∀ (cls : Tree.t Dept) tr cls',
     Tree.initialize_tree cls = (Ok tr, cls') →
     Tree.initialize_tree cls' = (Ok tr, cls') ∧ NoDup (elements tr))
  ∧ (∀ (cls : Tree.t Dept) cls1,
     Tree.new cls = (Ok tt, cls1) →
     Tree.new cls1 = (Ok tt, cls1)
     ∧ ∃ tr, Tree.tree cls1 = Some tr
          ∧ Tree.initialize_tree cls1 = (Ok tr, cls1)
          ∧ NoDup (elements tr)).
Proof.
  split; [| split; [| split]].
  - intros self table dates Hne. unfold CRTreeGrower.grow_cr_tree.
    by apply truthy_true in Hne as ->.
  - intros self table dates Hne.
    unfold AppropriationsGapsTreeGrower.grow_appropriation_gaps_tree.
    by apply truthy_true in Hne as ->.
  - intros cls tr cls' Hinit. split.
    + by apply initialize_tree_idempotent with cls.
    + apply NoDup_elements.
  - intros cls cls1 Hnew.
    destruct (new_idempotent _ _ Hnew) as (Hagain & tr & Htree & Hinit).
    split; [done |]. exists tr. repeat split; [done | done |].
    apply NoDup_elements.
Qed.

End idempotence.

Lemma build_is_idempotent_witness :
  _tree.CRTreeGrower.grow_cr_tree Example.cr_built None
    (Some (VInt 11000, VInt 11005))
  = (Ok (_tree.CRTreeGrower.tree Example.cr_built), Example.cr_built)
  ∧ _tree.AppropriationsGapsTreeGrower.grow_appropriation_gaps_tree
      Example.gap_built (Some []) None
    = (Ok (_tree.AppropriationsGapsTreeGrower.tree Example.gap_built),
       Example.gap_built)
  ∧ _tree.Tree.initialize_tree Example.loaded = (Ok Example.unified, Example.loaded).
Proof.
  destruct (build_is_idempotent (Dept:=string))
    as (Hcr & Hgap & Hinit & _).
  split; [| split].
  - apply Hcr. by_evaluation.
  - apply Hgap. by_evaluation.
  - apply (Hinit _tree.Tree.initial). exact example_first_call.
Defined.


(** ** The interval normalizer *)

Section normalizer.
Import time_utils _tree.
Context `{Platform}.

(** Every [int] but [True] passes the guard of the conversions. *)
Lemma int_passes_guard n : is_not_isinstance_int (VInt n) = true.
Proof. done. Qed.

(** An [int] is read as a POSIX time in seconds: on a host whose UTC offset
    is below a day, the day offset [n] becomes the day of second [n], which
    is not [n]. *)
Lemma int_day_offset_is_converted n :
  (∀ s, -86400 < utc_offset s < 86400) →
  2 <= n <= 8640000000 →
  ∃ d, to_posix_day (VInt n) = Ok (VInt d) ∧ -1 <= d <= n / 86400 + 1 ∧ d ≠ n.
Proof.
  intros Hoff Hn. specialize (Hoff n).
  exists ((n + utc_offset n) / 86400).
  assert (-1 <= (n + utc_offset n) / 86400 <= n / 86400 + 1) as Hd
    by (Z.div_mod_to_equations; lia).
  assert (n / 86400 + 1 < n) by (Z.div_mod_to_equations; lia).
  assert (n / 86400 <= 100000) by (Z.div_mod_to_equations; lia).
  split; [| split; [done | lia]].
  unfold to_posix_day, to_timestamp, _posix_to_timestamp, date_fromtimestamp.
  rewrite (proj2 (andb_true_iff _ _)) by lia. simpl.
  unfold _stamp_date, check_timestamp, pd_Timestamp_of_day.
  rewrite (proj2 (andb_true_iff _ _)) by lia. simpl.
  unfold pdtimestamp_to_posix_day. simpl. do 2 f_equal.
  rewrite Z.mul_comm. apply Z.div_mul. lia.
Qed.

(** A [date] converts to its own day offset. *)
Lemma date_converts_to_its_day day :
  -106751 <= day <= 106751 →
  to_posix_day (VDate day) = Ok (VInt day).
Proof.
  intros Hday.
  unfold to_posix_day, to_timestamp, _date_to_timestamp, _stamp_date,
    check_timestamp, pd_Timestamp_of_day.
  rewrite (proj2 (andb_true_iff _ _)) by lia. simpl.
  unfold pdtimestamp_to_posix_day. simpl. do 2 f_equal.
  rewrite Z.mul_comm. apply Z.div_mul. lia.
Qed.

(** Without a range the overlap check is the identity, as the spec has it. *)
Lemma overlap_without_range start end_ :
  _get_overlap_interval start end_ None = Ok (clip_spec start end_ None).
Proof. done. Qed.

End normalizer.

(** C7. The normalizer does not keep integer day offsets: on a host on
    UTC the pair of day offsets (11000, 11030) comes back as (0, 0), each
    offset having been read as a POSIX time in seconds. *)
Theorem integer_day_offsets_are_converted :
  _tree._get_date_interval (VInt 11000, VInt 11030) = Ok (VInt 0, VInt 0)
  ∧ _tree._get_date_interval (VInt 11000, VInt 11030)
    ≠ Ok (VInt 11000, VInt 11030).
Proof. split; [by vm_compute | by vm_compute]. Qed.

(** C6. The overlap check does not convert the end of the range on its
    own: on a host on UTC, for the range of the dates of day 10990 and day
    11200, each of which converts to its day, the interval (11000, 11030)
    is reported as not overlapping, where the intersection with the range
    is the interval itself. *)
Theorem range_end_is_taken_from_range_start :
  _tree._get_overlap_interval 11000 11030 (Some (VDate 10990, VDate 11200))
  = Ok None
  ∧ _tree.to_posix_day (VDate 10990) = Ok (VInt 10990)
  ∧ _tree.to_posix_day (VDate 11200) = Ok (VInt 11200)
  ∧ clip_spec 11000 11030 (Some (10990, 11200)) = Some (11000, 11030).
Proof. repeat split; by vm_compute. Qed.

(** C8. Without a range the overlap check returns the interval as it is;
    with a range in day offsets it does not return the intersection: on a
    host on UTC the interval (11000, 11030) is reported as not overlapping
    the range (10990, 11200) that contains it, and as not overlapping the
    range (11030, 11200) that it touches on day 11030. *)
Theorem overlap_with_integer_range :
  (∀ start end_,
     _tree._get_overlap_interval start end_ None = Ok (Some (start, end_)))
  ∧ _tree._get_overlap_interval 11000 11030 (Some (VInt 10990, VInt 11200))
    = Ok None
  ∧ clip_spec 11000 11030 (Some (10990, 11200)) = Some (11000, 11030)
  ∧ _tree._get_overlap_interval 11000 11030 (Some (VInt 11030, VInt 11200))
    = Ok None
  ∧ clip_spec 11000 11030 (Some (11030, 11200)) = Some (11030, 11030).
Proof. repeat split; by vm_compute. Qed.


(** ** The public constructor *)

Section constructor.
Import time_utils fedstamp.
Context {Dept : Type} `{Countable Dept} `{!Constants Dept} `{Platform}.

(** A stamp made by [pd.Timestamp(year=, month=, day=)] is naive and at
    midnight of its day. *)
Lemma pd_Timestamp_ymd_Ok y m d t :
  pd_Timestamp_ymd y m d = Ok t →
  t = mkTimestamp (86400 * days_from_civil y m d) None.
Proof.
  unfold pd_Timestamp_ymd, pd_Timestamp_of_day.
  destruct (valid_ymd y m d); [| done].
  destruct (_ && _); [| done]. by intros [= <-].
Qed.

(** C10. [to_fedstamp] raises [ValueError], and so returns no [FedStamp],
    for every number of arguments other than 1 and 3, none included; three
    arguments are handed to the converter of time tuples, which reads them
    as year, month and day: when they are, or convert to, the integers of a
    date from 1970 on that pandas can hold, the stamp is midnight of that
    date. *)
Theorem to_fedstamp_argument_count :
  (∀ date : list PyVal,
     length date ≠ 1%nat → length date ≠ 3%nat →
     to_fedstamp (Dept:=Dept) date = Raise ValueError)
  ∧ (∀ a b c,
     to_fedstamp (Dept:=Dept) [a; b; c]
     = (t <~ _timetuple_to_timestamp [a; b; c] ;; Ok (mkFedStamp (Some t) None)))
  ∧ (∀ a b c year month day t,
     py_int a = Ok year → py_int b = Ok month → py_int c = Ok day →
     1970 <= year →
     pd_Timestamp_ymd year month day = Ok t →
     to_fedstamp (Dept:=Dept) [a; b; c]
     = Ok (mkFedStamp
             (Some (mkTimestamp (86400 * days_from_civil year month day) None))
             None)).
Proof.
  split; [| split].
  - intros date H1 H3. unfold to_fedstamp.
    destruct date as [|a [|b [|c [|d rest]]]]; simpl in *; done.
  - intros a b c. unfold to_fedstamp. simpl.
    by destruct (_timetuple_to_timestamp [a; b; c]).
  - intros a b c year month day t Ha Hb Hc Hyear Ht.
    unfold to_fedstamp. simpl. rewrite Ha, Hb, Hc. simpl.
    assert (year <= 9999) as Hmax.
    { unfold pd_Timestamp_ymd, valid_ymd in Ht.
      destruct (year <=? 9999) eqn:Hle; [lia |].
      by rewrite andb_false_r in Ht. }
    rewrite (proj2 (andb_true_iff _ _)) by lia.
    unfold to_pdtimestamp. rewrite Ht. simpl.
    apply pd_Timestamp_ymd_Ok in Ht as ->. done.
Qed.

End constructor.

Lemma to_fedstamp_argument_count_witness :
  fedstamp.to_fedstamp (Dept:=string) [] = Raise ValueError
  ∧ fedstamp.to_fedstamp (Dept:=string) [VInt 2024; VInt 2] = Raise ValueError
  ∧ fedstamp.to_fedstamp (Dept:=string) [VInt 2024; VBool true; VInt 29; VInt 0]
    = Raise ValueError
  ∧ fedstamp.to_fedstamp (Dept:=string) [VInt 2024; VInt 2; VInt 29]
    = Ok (fedstamp.mkFedStamp (Some (mkTimestamp 1709164800 None)) None).
Proof.
  destruct (to_fedstamp_argument_count (Dept:=string)) as (Hcount & _ & Hymd).
  split; [| split; [| split]].
  - apply Hcount; simpl; lia.
  - apply Hcount; simpl; lia.
  - apply Hcount; simpl; lia.
  - apply (Hymd (VInt 2024) (VInt 2) (VInt 29) 2024 2 29
             (mkTimestamp 1709164800 None)); try reflexivity. lia.
Defined.


(** * Further properties of the code *)

(** ** The date converters of time_utils.py *)

Section converters.
Import time_utils.
Context `{Platform}.

Lemma _stamp_date_of_day day :
  _stamp_date (ADate day)
  = if holds_day day then Ok (midnight day) else Raise ValueError.
Proof.
  unfold _stamp_date, check_timestamp, pd_Timestamp_of_day, holds_day.
  by destruct (_ && _).
Qed.

Lemma _stamp_date_of_timestamp t0 t :
  _stamp_date (ATimestamp t0) = Ok t →
  normalized t ∧ ts_seconds t = ts_seconds t0
  ∧ (ts_tz t0 = None → t = t0).
Proof.
  unfold _stamp_date, check_timestamp, _stamp_date_body, normalized.
  destruct t0 as [secs [tz|]]; simpl; intros [= <-]; simpl; auto.
  split; [by right |]. split; [done | by intros [=]].
Qed.

Lemma pd_Timestamp_ymd_held y m d t :
  pd_Timestamp_ymd y m d = Ok t →
  holds_day (days_from_civil y m d) = true ∧ t = midnight (days_from_civil y m d).
Proof.
  unfold pd_Timestamp_ymd, pd_Timestamp_of_day, holds_day, midnight.
  destruct (valid_ymd y m d); [| done].
  destruct (_ && _); [| done]. by intros [= <-].
Qed.

Lemma first_held_Some candidates day :
  first_held candidates = Some day → holds_day day = true.
Proof.
  induction candidates as [|[d|] rest IH]; simpl; [done | | done].
  destruct (holds_day d) eqn:Hd; [by intros [= <-] | done].
Qed.

Lemma _str_formats_first_held date_input fmts :
  _str_formats date_input fmts
  = match first_held (map (date_strptime date_input) fmts) with
    | Some day => Ok (midnight day)
    | None => Raise ValueError
    end.
Proof.
  induction fmts as [|fmt rest IH]; cbn [_str_formats map first_held]; [done |].
  destruct (date_strptime date_input fmt) as [d|]; [| done].
  rewrite _stamp_date_of_day. by destruct (holds_day d).
Qed.

(** X1. The string converter returns midnight of the first day, among the
    ISO parse and the parses of the formats month/day/year, month-day-year,
    day/month/year and day-month-year in this order, that pandas can hold,
    and raises [ValueError] when there is none: a parse that pandas cannot
    hold is passed over like a failed one, and no other exception leaves
    the converter. *)
Theorem str_to_timestamp_is_first_held_parse :
  ∀ date_input : string,
    to_timestamp (VStr date_input)
    = match first_held (str_candidates date_input) with
      | Some day => Ok (midnight day)
      | None => Raise ValueError
      end.
Proof.
  intros date_input. unfold to_timestamp, _str_to_timestamp, str_candidates.
  cbn [first_held].
  destruct (date_fromisoformat date_input) as [d|].
  - rewrite _stamp_date_of_day. destruct (holds_day d); [done |].
    apply _str_formats_first_held.
  - apply _str_formats_first_held.
Qed.

(** X2. Whatever [to_timestamp] returns is without a time zone or in US
    Eastern time, and converting it again gives it back: the normalization
    is idempotent. *)
Theorem to_timestamp_normalizes :
  ∀ date_input t,
    to_timestamp date_input = Ok t →
    normalized t ∧ to_timestamp (VTimestamp t) = Ok t.
Proof.
  assert (Hnaive : ∀ day, normalized (midnight day)
                    ∧ to_timestamp (VTimestamp (midnight day)) = Ok (midnight day)).
  { intros day. split; [by left | done]. }
  assert (Hstamp : ∀ t0 t, _stamp_date (ATimestamp t0) = Ok t →
                    normalized t ∧ to_timestamp (VTimestamp t) = Ok t).
  { intros t0 t Ht. destruct (_stamp_date_of_timestamp _ _ Ht) as (Hn & _ & _).
    split; [done |]. destruct t as [secs tz], Hn as [Hn | Hn];
      simpl in Hn; subst tz; done. }
  assert (Hymd : ∀ y m d t,
    (t0 <~ to_pdtimestamp y m d ;; _stamp_date (ATimestamp t0)) = Ok t →
    normalized t ∧ to_timestamp (VTimestamp t) = Ok t).
  { intros y m d t (t0 & Ht0 & Ht)%rbind_Ok. by apply Hstamp with t0. }
  assert (Hday : ∀ day t, _stamp_date (ADate day) = Ok t →
                  normalized t ∧ to_timestamp (VTimestamp t) = Ok t).
  { intros day t. rewrite _stamp_date_of_day.
    destruct (holds_day day); [| done]. intros [= <-]. apply Hnaive. }
  intros [| b | n | s | day | t0 | y m d | items] t; simpl.
  - done.
  - unfold _posix_to_timestamp. intros (d & _ & Ht)%rbind_Ok. by apply Hday with d.
  - unfold _posix_to_timestamp. intros (d & _ & Ht)%rbind_Ok. by apply Hday with d.
  - intros Ht. change (to_timestamp (VStr s) = Ok t) in Ht.
    rewrite str_to_timestamp_is_first_held_parse in Ht.
    destruct (first_held (str_candidates s)); [| done].
    injection Ht as <-. apply Hnaive.
  - apply Hday.
  - apply Hstamp.
  - apply Hymd.
  - unfold _timetuple_to_timestamp.
    destruct items as [|a [|b [|c [|? ?]]]]; try done.
    intros (year & _ & (month & _ & (day & _ & Ht)%rbind_Ok)%rbind_Ok)%rbind_Ok.
    destruct (_ && _); [| done]. by apply Hymd in Ht.
Qed.

(** X3. Every input other than a [pd.Timestamp] converts, when it does, to
    midnight of a day that pandas can hold, without a time zone: the time of
    day of a POSIX time is dropped. *)
Theorem to_timestamp_gives_midnight :
  ∀ date_input t,
    (∀ t0, date_input ≠ VTimestamp t0) →
    to_timestamp date_input = Ok t →
    ∃ day, holds_day day = true ∧ t = midnight day.
Proof.
  assert (Hday : ∀ day t, _stamp_date (ADate day) = Ok t →
                  ∃ day, holds_day day = true ∧ t = midnight day).
  { intros day t. rewrite _stamp_date_of_day.
    destruct (holds_day day) eqn:Hd; [| done]. intros [= <-]. by exists day. }
  assert (Hymd : ∀ y m d t,
    (t0 <~ to_pdtimestamp y m d ;; _stamp_date (ATimestamp t0)) = Ok t →
    ∃ day, holds_day day = true ∧ t = midnight day).
  { intros y m d t (t0 & Ht0 & Ht)%rbind_Ok.
    apply pd_Timestamp_ymd_held in Ht0 as [Hheld ->].
    apply _stamp_date_of_timestamp in Ht as (_ & _ & ->); [| done].
    by exists (days_from_civil y m d). }
  intros [| b | n | s | day | t0 | y m d | items] t Hkind; simpl.
  - done.
  - unfold _posix_to_timestamp. intros (d & _ & Ht)%rbind_Ok. by apply Hday with d.
  - unfold _posix_to_timestamp. intros (d & _ & Ht)%rbind_Ok. by apply Hday with d.
  - intros Ht. change (to_timestamp (VStr s) = Ok t) in Ht.
    rewrite str_to_timestamp_is_first_held_parse in Ht.
    destruct (first_held (str_candidates s)) as [day|] eqn:Hfirst; [| done].
    injection Ht as <-. exists day. split; [| done].
    by apply first_held_Some in Hfirst.
  - apply Hday.
  - by destruct (Hkind t0).
  - apply Hymd.
  - unfold _timetuple_to_timestamp.
    destruct items as [|a [|b [|c [|? ?]]]]; try done.
    intros (year & _ & (month & _ & (day & _ & Ht)%rbind_Ok)%rbind_Ok)%rbind_Ok.
    destruct (_ && _); [| done]. by apply Hymd in Ht.
Qed.

(** X4. A time tuple whose items are, or convert to, a year from 1970 to
    9999, a month and a day converts exactly like the [YearMonthDay] of
    these numbers; with any other year it raises [ValueError], also where
    the [YearMonthDay] converts. *)
Theorem timetuple_agrees_with_yearmonthday :
  ∀ a b c year month day,
    py_int a = Ok year → py_int b = Ok month → py_int c = Ok day →
    (1970 <= year <= 9999 →
       to_timestamp (VTuple [a; b; c])
       = to_timestamp (VYearMonthDay year month day))
    ∧ (¬ 1970 <= year <= 9999 →
       to_timestamp (VTuple [a; b; c]) = Raise ValueError).
Proof.
  intros a b c year month day Ha Hb Hc.
  unfold to_timestamp, _timetuple_to_timestamp, _yearmonthday_to_timestamp.
  rewrite Ha, Hb, Hc. simpl. split; intros Hyear.
  - by rewrite (proj2 (andb_true_iff _ _)) by lia.
  - destruct (1970 <=? year) eqn:H1, (year <=? 9999) eqn:H2; simpl; try done.
    lia.
Qed.

End converters.

Lemma to_timestamp_normalizes_witness :
  normalized (mkTimestamp 1709230000 (Some "America/New_York"%string))
  ∧ time_utils.to_timestamp
      (VTimestamp (mkTimestamp 1709230000 (Some "America/New_York"%string)))
    = Ok (mkTimestamp 1709230000 (Some "America/New_York"%string)).
Proof.
  apply (to_timestamp_normalizes
           (VTimestamp (mkTimestamp 1709230000 (Some "UTC"%string)))).
  reflexivity.
Defined.

Lemma to_timestamp_gives_midnight_witness :
  ∃ day, holds_day day = true ∧ mkTimestamp 1709164800 None = midnight day.
Proof.
  apply (to_timestamp_gives_midnight (VInt 1709230000)).
  - intros t0. discriminate.
  - reflexivity.
Defined.

Lemma timetuple_agrees_with_yearmonthday_witness :
  time_utils.to_timestamp (VTuple [VInt 2024; VInt 2; VInt 29])
  = time_utils.to_timestamp (VYearMonthDay 2024 2 29)
  ∧ time_utils.to_timestamp (VTuple [VInt 1969; VBool true; VInt 20])
    = Raise ValueError
  ∧ time_utils.to_timestamp (VYearMonthDay 1969 1 20)
    = Ok (midnight (-346)).
Proof.
  destruct (timetuple_agrees_with_yearmonthday
              (VInt 2024) (VInt 2) (VInt 29) 2024 2 29 eq_refl eq_refl eq_refl)
    as [Hin _].
  destruct (timetuple_agrees_with_yearmonthday
              (VInt 1969) (VBool true) (VInt 20) 1969 1 20 eq_refl eq_refl eq_refl)
    as [_ Hout].
  split; [apply Hin; lia |]. split; [apply Hout; lia | reflexivity].
Defined.


(** ** The overlap check and the builders of _tree.py *)

Section builders_further.
Import intervaltree time_utils _tree.
Context {Dept : Type} `{Countable Dept} `{!Constants Dept} `{Platform}.
Implicit Types (tr : gset (Interval Dept)) (iv : Interval Dept).

(** X5. An overlap that the check returns lies within the interval that
    was checked: the check never moves the start back or the end forward,
    and without a range it returns the interval itself. *)
Theorem overlap_lies_within_interval :
  ∀ start end_ date_range a b,
    _get_overlap_interval start end_ date_range = Ok (Some (a, b)) →
    start <= a ∧ b <= end_ ∧ (date_range = None → a = start ∧ b = end_).
Proof.
  intros start end_ [[start_range end_range]|] a b; simpl.
  - intros (sr & _ & (er & _ & (srn & _ & (ern & _ & Hov)%rbind_Ok)
              %rbind_Ok)%rbind_Ok)%rbind_Ok.
    destruct (_ || _); [done |]. injection Hov as <- <-.
    split; [lia |]. split; [lia | done].
  - intros [= <- <-]. split; [lia |]. split; [lia | done].
Qed.

(** X6. A build restricted to a date range adds only intervals that the
    unrestricted build of the same table adds: the range leaves entries out,
    it neither adds nor alters an interval.  This holds for both builders. *)
Theorem restricted_build_is_subset :
  (∀ (self : CRTreeGrower.t Dept) table dates tr self' tr0 self0,
     CRTreeGrower.tree self = ∅ →
     CRTreeGrower.grow_cr_tree self table dates = (Ok tr, self') →
     CRTreeGrower.grow_cr_tree self table None = (Ok tr0, self0) →
     tr ⊆ tr0)
  ∧ (∀ (self : AppropriationsGapsTreeGrower.t Dept) table dates tr self' tr0 self0,
     AppropriationsGapsTreeGrower.tree self = ∅ →
     AppropriationsGapsTreeGrower.grow_appropriation_gaps_tree self table dates
     = (Ok tr, self') →
     AppropriationsGapsTreeGrower.grow_appropriation_gaps_tree self table None
     = (Ok tr0, self0) →
     tr ⊆ tr0).
Proof.
  split.
  - intros self table dates tr self' tr0 self0 Hempty Hgrow Hgrow0.
    destruct (grow_cr_tree_Ok _ _ _ _ _ Hempty Hgrow)
      as (_ & _ & date_range & _ & Htr).
    destruct (grow_cr_tree_Ok _ _ _ _ _ Hempty Hgrow0)
      as (_ & _ & date_range0 & [= <-] & Htr0).
    intros iv (item & Hin & _ & ->)%Htr. apply Htr0.
    exists item. split; [done |]. split; [| done].
    by exists (item.1.1, item.1.2).
  - intros self table dates tr self' tr0 self0 Hempty Hgrow Hgrow0.
    destruct (grow_appropriation_gaps_tree_Ok _ _ _ _ _ Hempty Hgrow)
      as (_ & _ & date_range & _ & Htr).
    destruct (grow_appropriation_gaps_tree_Ok _ _ _ _ _ Hempty Hgrow0)
      as (_ & _ & date_range0 & [= <-] & Htr0).
    intros iv (item & Hin & _ & ->)%Htr. apply Htr0.
    exists item. split; [done |]. split; [| done].
    by exists (item.1.1, item.1.2).
Qed.

Lemma cr_interval_key item1 item2 :
  cr_interval item1 = cr_interval item2 → item1.1 = item2.1.
Proof.
  destruct item1 as [[s1 e1] c1], item2 as [[s2 e2] c2].
  unfold cr_interval; simpl. intros [= -> He _]. f_equal. lia.
Qed.

Lemma gap_interval_key
    (item1 item2 : (Z * Z) * (gset Dept * ShutdownFlag)) :
  gap_interval item1 = gap_interval item2 → item1.1 = item2.1.
Proof.
  destruct item1 as [[s1 e1] c1], item2 as [[s2 e2] c2].
  unfold gap_interval; simpl. intros [= -> He _]. f_equal. lia.
Qed.

Lemma NoDup_fmap_by_key {A B : Type} (key : A → Z * Z) (f : A → B) (l : list A) :
  (∀ x y, f x = f y → key x = key y) →
  NoDup (map key l) → NoDup (f <$> l).
Proof.
  intros Hkey. induction l as [|x l IH]; simpl; [constructor |].
  intros [Hx Hl]%NoDup_cons. apply NoDup_cons. split; [| by apply IH].
  intros (y & Hxy & Hy)%list_elem_of_fmap. apply Hx.
  rewrite (Hkey _ _ Hxy). apply list_elem_of_fmap. by exists y.
Qed.

(** X7. An unrestricted build of a table whose keys are distinct, as those
    of a dict are, gives a tree with as many intervals as the table has
    entries: no entry is lost and no two entries fall together.  This holds
    for both builders. *)
Theorem unrestricted_build_keeps_every_entry :
  (∀ (self : CRTreeGrower.t Dept) table tr self',
     CRTreeGrower.tree self = ∅ →
     distinct_keys (default (CRTreeGrower.cr_departments self) table) →
     CRTreeGrower.grow_cr_tree self table None = (Ok tr, self') →
     size tr = length (default (CRTreeGrower.cr_departments self) table))
  ∧ (∀ (self : AppropriationsGapsTreeGrower.t Dept) table tr self',
     AppropriationsGapsTreeGrower.tree self = ∅ →
     distinct_keys
       (default (AppropriationsGapsTreeGrower.appropriations_gaps self) table) →
     AppropriationsGapsTreeGrower.grow_appropriation_gaps_tree self table None
     = (Ok tr, self') →
     size tr
     = length (default (AppropriationsGapsTreeGrower.appropriations_gaps self) table)).
Proof.
  split.
  - intros self table tr self' Hempty Hkeys Hgrow.
    destruct (grow_cr_tree_Ok _ _ _ _ _ Hempty Hgrow)
      as (_ & _ & date_range & [= <-] & Htr).
    set (items := default (CRTreeGrower.cr_departments self) table) in *.
    assert (tr = list_to_set (cr_interval <$> items)) as ->.
    { apply set_eq. intros iv.
      rewrite Htr, elem_of_list_to_set, list_elem_of_fmap. split.
      - intros (item & ? & _ & ->). by exists item.
      - intros (item & -> & ?). exists item. split; [done |]. split; [| done].
        by exists (item.1.1, item.1.2). }
    rewrite size_list_to_set, length_fmap; [done |].
    apply (NoDup_fmap_by_key fst); [apply cr_interval_key | done].
  - intros self table tr self' Hempty Hkeys Hgrow.
    destruct (grow_appropriation_gaps_tree_Ok _ _ _ _ _ Hempty Hgrow)
      as (_ & _ & date_range & [= <-] & Htr).
    set (items :=
      default (AppropriationsGapsTreeGrower.appropriations_gaps self) table) in *.
    assert (tr = list_to_set (gap_interval <$> items)) as ->.
    { apply set_eq. intros iv.
      rewrite Htr, elem_of_list_to_set, list_elem_of_fmap. split.
      - intros (item & ? & _ & ->). by exists item.
      - intros (item & -> & ?). exists item. split; [done |]. split; [| done].
        by exists (item.1.1, item.1.2). }
    rewrite size_list_to_set, length_fmap; [done |].
    apply (NoDup_fmap_by_key fst); [apply gap_interval_key | done].
Qed.

End builders_further.

(** A call on the instance that returns, taken apart by evaluation. *)
Ltac returned_by_evaluation call tr self' Hcall :=
  let e := fresh "e" in
  let Hok := fresh "Hok" in
  assert (is_Ok (call.1) = true) as Hok by (vm_compute; reflexivity);
  destruct call as [[tr|e] self'] eqn:Hcall; [clear Hok | discriminate Hok].

Lemma overlap_lies_within_interval_witness :
  (0 <= 0 ∧ 0 <= 5 ∧ (Some (VDate 0, VDate 3) = None → 0 = 0 ∧ 0 = 5)).
Proof.
  apply (overlap_lies_within_interval 0 5 (Some (VDate 0, VDate 3)) 0 0).
  reflexivity.
Defined.

Lemma restricted_build_is_subset_witness :
  ∃ tr tr0 self' self0,
    _tree.CRTreeGrower.grow_cr_tree Example.cr_builder
      (Some Example.early_table) Example.early_range = (Ok tr, self')
    ∧ _tree.CRTreeGrower.grow_cr_tree Example.cr_builder
        (Some Example.early_table) None = (Ok tr0, self0)
    ∧ tr ⊆ tr0.
Proof.
  returned_by_evaluation
    (_tree.CRTreeGrower.grow_cr_tree Example.cr_builder
       (Some Example.early_table) Example.early_range) tr self' Hgrow.
  returned_by_evaluation
    (_tree.CRTreeGrower.grow_cr_tree Example.cr_builder
       (Some Example.early_table) None) tr0 self0 Hgrow0.
  exists tr, tr0, self', self0. split; [done |]. split; [done |].
  destruct (restricted_build_is_subset (Dept:=string)) as [Hcr _].
  exact (Hcr Example.cr_builder (Some Example.early_table) Example.early_range
           tr self' tr0 self0 eq_refl Hgrow Hgrow0).
Defined.

Lemma unrestricted_build_keeps_every_entry_witness :
  ∃ tr self',
    _tree.CRTreeGrower.grow_cr_tree Example.cr_builder
      (Some Example.early_table) None = (Ok tr, self')
    ∧ size tr = 2%nat.
Proof.
  returned_by_evaluation
    (_tree.CRTreeGrower.grow_cr_tree Example.cr_builder
       (Some Example.early_table) None) tr self' Hgrow.
  exists tr, self'. split; [done |].
  destruct (unrestricted_build_keeps_every_entry (Dept:=string)) as [Hcr _].
  apply (Hcr Example.cr_builder (Some Example.early_table) tr self' eq_refl);
    [| done].
  unfold distinct_keys. by_evaluation.
Defined.


(** ** Malformed tables, and what the unified tree holds *)

Section builders_edges.
Import intervaltree time_utils _tree.
Context {Dept : Type} `{Countable Dept} `{!Constants Dept} `{Platform}.
Implicit Types (tr : gset (Interval Dept)) (iv : Interval Dept).

Lemma cr_grow_loop_app date_range items1 items2 tr :
  CRTreeGrower.grow_loop date_range (items1 ++ items2) tr
  = match CRTreeGrower.grow_loop date_range items1 tr with
    | (Ok _, tr1) => CRTreeGrower.grow_loop date_range items2 tr1
    | (Raise e, tr1) => (Raise e, tr1)
    end.
Proof.
  revert tr. induction items1 as [|item rest IH]; intros tr; simpl; [done |].
  by destruct (CRTreeGrower.grow_step date_range tr item).
Qed.

Lemma gap_grow_loop_app date_range items1 items2 tr :
  AppropriationsGapsTreeGrower.grow_loop date_range (items1 ++ items2) tr
  = match AppropriationsGapsTreeGrower.grow_loop date_range items1 tr with
    | (Ok _, tr1) => AppropriationsGapsTreeGrower.grow_loop date_range items2 tr1
    | (Raise e, tr1) => (Raise e, tr1)
    end.
Proof.
  revert tr. induction items1 as [|item rest IH]; intros tr; simpl; [done |].
  by destruct (AppropriationsGapsTreeGrower.grow_step date_range tr item).
Qed.

(** A null interval is refused by a tree that holds none. *)
Lemma addi_null tr b e d :
  (∀ iv, iv ∈ tr → begin iv < end_ iv) → e <= b →
  addi tr b e d = Raise ValueError.
Proof.
  intros Hnn Hnull. unfold addi, is_null; simpl. case_decide as Hin.
  - apply Hnn in Hin. simpl in Hin. lia.
  - by apply Z.leb_le in Hnull as ->.
Qed.

(** X8. An unrestricted build stops at the first entry that ends before it
    starts: it raises [ValueError], and the builder's tree is left with the
    intervals of the entries before that one.  This holds for both
    builders. *)
Theorem build_stops_at_null_entry :
  (∀ (self : CRTreeGrower.t Dept) table before item after,
     CRTreeGrower.tree self = ∅ →
     default (CRTreeGrower.cr_departments self) table = before ++ item :: after →
     (∀ i, i ∈ before → i.1.1 <= i.1.2) →
     item.1.2 < item.1.1 →
     ∃ self',
       CRTreeGrower.grow_cr_tree self table None = (Raise ValueError, self')
       ∧ ∀ iv, iv ∈ CRTreeGrower.tree self' ↔
           ∃ i, i ∈ before ∧ iv = cr_interval i)
  ∧ (∀ (self : AppropriationsGapsTreeGrower.t Dept) table before item after,
     AppropriationsGapsTreeGrower.tree self = ∅ →
     default (AppropriationsGapsTreeGrower.appropriations_gaps self) table
     = before ++ item :: after →
     (∀ i, i ∈ before → i.1.1 <= i.1.2) →
     item.1.2 < item.1.1 →
     ∃ self',
       AppropriationsGapsTreeGrower.grow_appropriation_gaps_tree self table None
       = (Raise ValueError, self')
       ∧ ∀ iv, iv ∈ AppropriationsGapsTreeGrower.tree self' ↔
           ∃ i, i ∈ before ∧ iv = gap_interval i).
Proof.
  split.
  - intros self table before [[start end_] departments] after
      Hempty Htable Hbefore Hnull. simpl in Hnull.
    unfold CRTreeGrower.grow_cr_tree. rewrite Hempty, truthy_empty, Htable.
    cbn [date_range_of]. rewrite cr_grow_loop_app.
    destruct (cr_grow_loop_total before ∅ Hbefore) as [tr1 Hloop].
    rewrite Hloop. cbn [CRTreeGrower.grow_loop CRTreeGrower.grow_step
                        _get_overlap_interval rbind].
    rewrite addi_null; [| | lia].
    + eexists. split; [reflexivity |]. intros iv. simpl.
      rewrite (cr_grow_loop_Ok _ _ _ _ Hloop iv). split.
      * intros [Hiv | (i & ? & _ & ?)]; [by apply elem_of_empty in Hiv |].
        by exists i.
      * intros (i & ? & ?). right. exists i. split; [done |]. split; [| done].
        by exists (i.1.1, i.1.2).
    + apply (cr_grow_loop_not_null _ _ _ _ Hloop). intros iv Hiv.
      by apply elem_of_empty in Hiv.
  - intros self table before [[start end_] [departments shutdown]] after
      Hempty Htable Hbefore Hnull. simpl in Hnull.
    unfold AppropriationsGapsTreeGrower.grow_appropriation_gaps_tree.
    rewrite Hempty, truthy_empty, Htable.
    cbn [date_range_of]. rewrite gap_grow_loop_app.
    destruct (gap_grow_loop_total before ∅ Hbefore) as [tr1 Hloop].
    rewrite Hloop. cbn [AppropriationsGapsTreeGrower.grow_loop
                        AppropriationsGapsTreeGrower.grow_step
                        _get_overlap_interval rbind].
    rewrite addi_null; [| | lia].
    + eexists. split; [reflexivity |]. intros iv. simpl.
      rewrite (gap_grow_loop_Ok _ _ _ _ Hloop iv). split.
      * intros [Hiv | (i & ? & _ & ?)]; [by apply elem_of_empty in Hiv |].
        by exists i.
      * intros (i & ? & ?). right. exists i. split; [done |]. split; [| done].
        by exists (i.1.1, i.1.2).
    + apply (gap_grow_loop_not_null _ _ _ _ Hloop). intros iv Hiv.
      by apply elem_of_empty in Hiv.
Qed.

(** X9. In the tree of the first call no interval is shared by the CR tree
    and the gap tree, so the unified tree has as many intervals as the two
    together; each of its intervals is not empty and carries the CR, the gap
    or the shutdown status, never one of the two defaults. *)
Theorem unified_tree_holds_exceptions_only :
  ∀ tr cls',
    Tree.initialize_tree Tree.initial = (Ok tr, cls') →
    ∃ crt gt,
      Tree.cr_tree cls' = Some crt ∧ Tree.gap_tree cls' = Some gt
      ∧ crt ## gt
      ∧ size tr = (size crt + size gt)%nat
      ∧ ∀ iv, iv ∈ tr →
          begin iv < end_ iv
          ∧ ((data iv).2 = CR_STATUS ∨ (data iv).2 = GAP_STATUS
             ∨ (data iv).2 = SHUTDOWN_STATUS).
Proof.
  intros tr cls' Hinit.
  destruct (initialize_tree_initial _ _ Hinit) as (ci & gi & Hci & Hgi & -> & ->).
  exists (CRTreeGrower.tree ci), (AppropriationsGapsTreeGrower.tree gi).
  assert (Hcr : ∀ iv, iv ∈ CRTreeGrower.tree ci →
                 begin iv < end_ iv ∧ (data iv).2 = CR_STATUS).
  { unfold CRTreeGrower.new, CRTreeGrower.__attrs_post_init__ in Hci.
    destruct (CRTreeGrower.grow_cr_tree _ None None)
      as [[tr|e] self'] eqn:Hgrow; [| done].
    injection Hci as <-. simpl.
    destruct (grow_cr_tree_Ok (CRTreeGrower.mk DEPTS_SET CR_DEPARTMENTS ∅)
                _ _ _ _ eq_refl Hgrow) as (_ & Hnn & date_range & _ & Htr).
    intros iv Hiv. split; [by apply Hnn |].
    by apply Htr in Hiv as (item & _ & _ & ->). }
  assert (Hgap : ∀ iv, iv ∈ AppropriationsGapsTreeGrower.tree gi →
                  begin iv < end_ iv
                  ∧ ((data iv).2 = GAP_STATUS ∨ (data iv).2 = SHUTDOWN_STATUS)).
  { unfold AppropriationsGapsTreeGrower.new,
      AppropriationsGapsTreeGrower.__attrs_post_init__ in Hgi.
    destruct (AppropriationsGapsTreeGrower.grow_appropriation_gaps_tree _ None None)
      as [[tr|e] self'] eqn:Hgrow; [| done].
    injection Hgi as <-. simpl.
    destruct (grow_appropriation_gaps_tree_Ok
                (AppropriationsGapsTreeGrower.mk ∅ APPROPRIATIONS_GAPS None)
                _ _ _ _ eq_refl Hgrow) as (_ & Hnn & date_range & _ & Htr).
    intros iv Hiv. split; [by apply Hnn |].
    apply Htr in Hiv as (item & _ & _ & ->). simpl.
    unfold AppropriationsGapsTreeGrower.gap_status. case_decide; auto. }
  assert (Hdisj : CRTreeGrower.tree ci ## AppropriationsGapsTreeGrower.tree gi).
  { apply elem_of_disjoint. intros iv [_ Hc]%Hcr [_ Hg]%Hgap.
    rewrite Hc in Hg. by destruct Hg. }
  split; [done |]. split; [done |]. split; [done |].
  split; [by apply size_union |].
  intros iv [Hiv | Hiv]%elem_of_union.
  - apply Hcr in Hiv as [? ?]. auto.
  - apply Hgap in Hiv as [? [? | ?]]; auto.
Qed.

(** X10. The class method [initialize_tree] never stores the unified tree:
    whether it returns or raises, the class attribute [tree] is what it
    was, a builder that was set is still set, and a populated sub-tree is
    kept; only the constructor of [Tree] stores what the method returns. *)
Theorem initialize_tree_does_not_cache :
  ∀ cls : Tree.t Dept,
    let cls' := (Tree.initialize_tree cls).2 in
    Tree.tree cls' = Tree.tree cls
    ∧ (∀ ci, Tree.cr_instance cls = Some ci → Tree.cr_instance cls' = Some ci)
    ∧ (∀ gi, Tree.gap_instance cls = Some gi → Tree.gap_instance cls' = Some gi)
    ∧ (∀ crt, Tree.cr_tree cls = Some crt → crt ≠ ∅ →
         Tree.cr_tree cls' = Some crt)
    ∧ (∀ gt, Tree.gap_tree cls = Some gt → gt ≠ ∅ →
         Tree.gap_tree cls' = Some gt)
    ∧ (∀ tr, (Tree.initialize_tree cls).1 = Ok tr →
         Tree.tree (Tree.new cls).2 = Some tr).
Proof.
  intros cls cls'. subst cls'. unfold Tree.new, Tree.initialize_tree.
  destruct (Tree.if_true (Tree.tree cls)) as [tr0|].
  { simpl. repeat split; auto. by intros tr [= <-]. }
  unfold Tree._initialize_cr_tree, Tree._initialize_gap_tree.
  assert (Hkeep : ∀ attr (x y : gset (Interval Dept)),
    attr = Some x → x ≠ ∅ →
    Some (match Tree.if_true attr with Some tr => tr | None => y end) = Some x).
  { intros attr x y -> Hx.
    by rewrite (proj2 (if_true_Some (Some x) x) (conj eq_refl Hx)). }
  destruct cls as [gi ci crt gt cached]; simpl.
  destruct ci as [ci|]; [| destruct CRTreeGrower.new as [ci|e]];
    (destruct gi as [gi|];
       [| destruct AppropriationsGapsTreeGrower.new as [gi|e']]);
    simpl; repeat split; try done; try (intros ? [= <-]; done);
    try (intros x Hx Hne; by apply Hkeep);
    try (by intros ? [= <-]).
Qed.

End builders_edges.

Lemma build_stops_at_null_entry_witness :
  ∃ self',
    _tree.CRTreeGrower.grow_cr_tree Example.cr_builder
      (Some Example.broken_table) None = (Raise ValueError, self')
    ∧ ∀ iv, iv ∈ _tree.CRTreeGrower.tree self' ↔
        ∃ i, i ∈ [ ((11000, 11030), ({[ Example.DeptX ]} : gset string)) ]
             ∧ iv = cr_interval i.
Proof.
  destruct (build_stops_at_null_entry (Dept:=string)) as [Hcr _].
  apply (Hcr Example.cr_builder (Some Example.broken_table)
           [ ((11000, 11030), {[ Example.DeptX ]}) ]
           ((11050, 11040), ∅)
           [ ((11100, 11130), {[ Example.DeptY ]}) ]).
  - reflexivity.
  - reflexivity.
  - intros i [-> | Hin]%elem_of_cons; [simpl; lia | by apply elem_of_nil in Hin].
  - simpl. lia.
Defined.

Lemma unified_tree_holds_exceptions_only_witness :
  ∃ crt gt,
    _tree.Tree.cr_tree Example.loaded = Some crt
    ∧ _tree.Tree.gap_tree Example.loaded = Some gt
    ∧ crt ## gt
    ∧ size Example.unified = (size crt + size gt)%nat.
Proof.
  destruct (unified_tree_holds_exceptions_only Example.unified Example.loaded
              example_first_call) as (crt & gt & Hcrt & Hgt & Hdisj & Hsize & _).
  exists crt, gt. exact (conj Hcrt (conj Hgt (conj Hdisj Hsize))).
Defined.

Lemma initialize_tree_does_not_cache_witness :
  _tree.Tree.tree (_tree.Tree.initialize_tree Example.loaded).2
  = _tree.Tree.tree Example.loaded
  ∧ ∃ crt, _tree.Tree.cr_tree Example.loaded = Some crt
      ∧ _tree.Tree.cr_tree (_tree.Tree.initialize_tree Example.loaded).2 = Some crt.
Proof.
  destruct (initialize_tree_does_not_cache Example.loaded)
    as (Htree & _ & _ & Hcrt & _).
  split; [exact Htree |].
  exists Example.cr_tree. split.
  - by_evaluation.
  - apply Hcrt; by_evaluation.
Defined.


(** ** Builds restricted to a date range *)

Section restricted_builds.
Import intervaltree time_utils _tree.
Context {Dept : Type} `{Countable Dept} `{!Constants Dept} `{Platform}.
Implicit Types (tr : gset (Interval Dept)) (iv : Interval Dept).

Lemma to_posix_day_of_midnight date_input day :
  to_timestamp date_input = Ok (midnight day) →
  to_posix_day date_input = Ok (VInt day).
Proof.
  intros Hts. unfold to_posix_day. rewrite Hts. simpl.
  unfold pdtimestamp_to_posix_day, midnight. simpl. do 2 f_equal.
  rewrite Z.mul_comm. apply Z.div_mul. lia.
Qed.

(** X11. The normalizer turns a pair of [datetime.date]s, and a pair of
    [YearMonthDay]s, into the day offsets of the two dates, each bound
    converted on its own, whenever pandas can hold the dates. *)
Theorem date_interval_of_dates :
  (∀ day1 day2,
     holds_day day1 = true → holds_day day2 = true →
     _get_date_interval (VDate day1, VDate day2) = Ok (VInt day1, VInt day2))
  ∧ (∀ y1 m1 d1 y2 m2 d2,
     valid_ymd y1 m1 d1 = true → holds_day (days_from_civil y1 m1 d1) = true →
     valid_ymd y2 m2 d2 = true → holds_day (days_from_civil y2 m2 d2) = true →
     _get_date_interval (VYearMonthDay y1 m1 d1, VYearMonthDay y2 m2 d2)
     = Ok (VInt (days_from_civil y1 m1 d1), VInt (days_from_civil y2 m2 d2))).
Proof.
  assert (Hdate : ∀ day, holds_day day = true →
                   to_timestamp (VDate day) = Ok (midnight day)).
  { intros day Hday. unfold to_timestamp, _date_to_timestamp.
    by rewrite _stamp_date_of_day, Hday. }
  assert (Hymd : ∀ y m d,
    valid_ymd y m d = true → holds_day (days_from_civil y m d) = true →
    to_timestamp (VYearMonthDay y m d) = Ok (midnight (days_from_civil y m d))).
  { intros y m d Hvalid Hheld.
    unfold to_timestamp, _yearmonthday_to_timestamp, to_pdtimestamp,
      pd_Timestamp_ymd, pd_Timestamp_of_day.
    rewrite Hvalid. unfold holds_day in Hheld. by rewrite Hheld. }
  split.
  - intros day1 day2 H1 H2. unfold _get_date_interval.
    cbn [is_not_isinstance_int].
    rewrite (to_posix_day_of_midnight _ _ (Hdate _ H1)).
    by rewrite (to_posix_day_of_midnight _ _ (Hdate _ H2)).
  - intros y1 m1 d1 y2 m2 d2 Hv1 Hh1 Hv2 Hh2. unfold _get_date_interval.
    cbn [is_not_isinstance_int].
    rewrite (to_posix_day_of_midnight _ _ (Hymd _ _ _ Hv1 Hh1)).
    by rewrite (to_posix_day_of_midnight _ _ (Hymd _ _ _ Hv2 Hh2)).
Qed.

(** An [int] is taken for a POSIX time, whatever it stands for. *)
Lemma to_posix_day_of_int n :
  (∀ s, -86400 < utc_offset s < 86400) →
  -8640000000 <= n <= 8640000000 →
  to_posix_day (VInt n) = Ok (VInt ((n + utc_offset n) / 86400)).
Proof.
  intros Hoff Hn. specialize (Hoff n).
  assert (-100001 <= (n + utc_offset n) / 86400 <= 100001) as Hd
    by (Z.div_mod_to_equations; lia).
  apply to_posix_day_of_midnight.
  unfold to_timestamp, _posix_to_timestamp, date_fromtimestamp.
  rewrite (proj2 (andb_true_iff _ _)) by lia. cbn [rbind].
  rewrite _stamp_date_of_day. unfold holds_day.
  by rewrite (proj2 (andb_true_iff _ _)) by lia.
Qed.

(** The overlap check against a range that [_get_date_interval] has
    already normalized: the day offsets are converted once more, which
    leaves a range that ends by day 1. *)
Lemma overlap_with_normalized_range start end_ a b :
  (∀ s, -86400 < utc_offset s < 86400) →
  -106751 <= a <= 106751 →
  2 <= start →
  _get_overlap_interval start end_ (Some (VInt a, VInt b)) = Ok None.
Proof.
  intros Hoff Ha Hstart. unfold _get_overlap_interval.
  cbn [is_not_isinstance_int].
  rewrite (to_posix_day_of_int a Hoff) by lia. cbn [rbind].
  pose proof (Hoff a) as Hoffa.
  assert (-3 <= (a + utc_offset a) / 86400 <= 2) as Hsr
    by (Z.div_mod_to_equations; lia).
  set (sr := (a + utc_offset a) / 86400) in *.
  rewrite (to_posix_day_of_int sr Hoff) by lia. cbn [rbind py_num].
  pose proof (Hoff sr) as Hoffsr.
  assert ((sr + utc_offset sr) / 86400 <= 1) as Her
    by (Z.div_mod_to_equations; lia).
  assert ((start >? (sr + utc_offset sr) / 86400) = true) as ->
    by (apply Z.gtb_lt; lia).
  by rewrite orb_true_r.
Qed.

(** X12. A build restricted to a date range keeps no entry that starts on
    day 2 or later: the builder normalizes the range to day offsets, the
    overlap check converts these offsets again as POSIX times, and the
    range it compares with ends by day 1.  On a host whose UTC offset is
    below a day and for a range that starts on a day pandas can hold, the
    build returns the empty tree and leaves the builder as it was.  This
    holds for both builders. *)
Theorem restricted_build_drops_later_entries :
  (∀ s, -86400 < utc_offset s < 86400) →
  (∀ (self : CRTreeGrower.t Dept) table dates a b,
     CRTreeGrower.tree self = ∅ →
     date_range_of dates = Ok (Some (VInt a, VInt b)) →
     -106751 <= a <= 106751 →
     (∀ item, item ∈ default (CRTreeGrower.cr_departments self) table →
              2 <= item.1.1) →
     CRTreeGrower.grow_cr_tree self table dates = (Ok ∅, self))
  ∧ (∀ (self : AppropriationsGapsTreeGrower.t Dept) table dates a b,
     AppropriationsGapsTreeGrower.tree self = ∅ →
     date_range_of dates = Ok (Some (VInt a, VInt b)) →
     -106751 <= a <= 106751 →
     (∀ item,
        item ∈ default (AppropriationsGapsTreeGrower.appropriations_gaps self) table →
        2 <= item.1.1) →
     AppropriationsGapsTreeGrower.grow_appropriation_gaps_tree self table dates
     = (Ok ∅, self)).
Proof.
  intros Hoff. split.
  - intros self table dates a b Hempty Hrange Ha Hitems.
    unfold CRTreeGrower.grow_cr_tree. rewrite Hempty, truthy_empty, Hrange.
    assert (Hloop : ∀ items tr,
      (∀ item, item ∈ items → 2 <= item.1.1) →
      CRTreeGrower.grow_loop (Some (VInt a, VInt b)) items tr = (Ok tt, tr)).
    { induction items as [|[[start end_] departments] rest IH];
        intros tr Hall; [done |].
      cbn [CRTreeGrower.grow_loop CRTreeGrower.grow_step].
      rewrite overlap_with_normalized_range; [| done | done |].
      - cbn [rbind]. apply IH. intros item Hin. apply Hall. by right.
      - apply (Hall ((start, end_), departments)). left. }
    rewrite (Hloop _ _ Hitems). cbn [rbind].
    destruct self as [ds table0 tr0]. simpl in Hempty. by subst tr0.
  - intros self table dates a b Hempty Hrange Ha Hitems.
    unfold AppropriationsGapsTreeGrower.grow_appropriation_gaps_tree.
    rewrite Hempty, truthy_empty, Hrange.
    assert (Hloop : ∀ items tr,
      (∀ item, item ∈ items → 2 <= item.1.1) →
      AppropriationsGapsTreeGrower.grow_loop (Some (VInt a, VInt b)) items tr
      = (Ok tt, tr)).
    { induction items as [|[[start end_] [departments shutdown]] rest IH];
        intros tr Hall; [done |].
      cbn [AppropriationsGapsTreeGrower.grow_loop
           AppropriationsGapsTreeGrower.grow_step].
      rewrite overlap_with_normalized_range; [| done | done |].
      - cbn [rbind]. apply IH. intros item Hin. apply Hall. by right.
      - apply (Hall ((start, end_), (departments, shutdown))). left. }
    rewrite (Hloop _ _ Hitems). cbn [rbind].
    destruct self as [tr0 table0 dates0]. simpl in Hempty. by subst tr0.
Qed.

End restricted_builds.

Lemma date_interval_of_dates_witness :
  _tree._get_date_interval (VDate 10990, VDate 11200)
  = Ok (VInt 10990, VInt 11200)
  ∧ _tree._get_date_interval (VYearMonthDay 2000 2 3, VYearMonthDay 2000 8 31)
    = Ok (VInt (days_from_civil 2000 2 3), VInt (days_from_civil 2000 8 31)).
Proof.
  destruct date_interval_of_dates as [Hdate Hymd]. split.
  - apply Hdate; reflexivity.
  - apply Hymd; reflexivity.
Defined.

Lemma restricted_build_drops_later_entries_witness :
  _tree.CRTreeGrower.grow_cr_tree Example.cr_builder None
    (Some (VYearMonthDay 2000 2 3, VYearMonthDay 2000 8 31))
  = (Ok ∅, Example.cr_builder)
  ∧ _tree.AppropriationsGapsTreeGrower.grow_appropriation_gaps_tree
      Example.gap_builder None (Some (VDate 10990, VDate 11200))
    = (Ok ∅, Example.gap_builder).
Proof.
  destruct (restricted_build_drops_later_entries (Dept:=string)) as [Hcr Hgap].
  { intros s. simpl. lia. }
  split.
  - apply (Hcr Example.cr_builder None _ 10990 11200); [done | done | lia |].
    intros item [-> | Hin]%elem_of_cons; [simpl; lia | by apply elem_of_nil in Hin].
  - apply (Hgap Example.gap_builder None _ 10990 11200); [done | done | lia |].
    intros item [-> | Hin]%elem_of_cons; [simpl; lia | by apply elem_of_nil in Hin].
Defined.


(** ** The status queries and the constructor of fedstamp.py *)

Section stamp_further.
Import time_utils fedstamp FedStampStatus.
Context {Dept : Type} `{Countable Dept} `{!Constants Dept} `{Platform}.





(** X16. [to_fedstamp] returns a stamp only for three arguments that are,
    or convert to, the year, month and day of a date from 1970 on that
    pandas can hold, and the stamp is then midnight of that date, without a
    time zone and with an empty cache; in particular a call with one
    argument, whatever it is, raises. *)
Theorem to_fedstamp_returns_only_for_a_date :
  ∀ (date : list PyVal) (stamp : FedStamp Dept),
    to_fedstamp date = Ok stamp →
    ∃ a b c year month day,
      date = [a; b; c]
      ∧ py_int a = Ok year ∧ py_int b = Ok month ∧ py_int c = Ok day
      ∧ 1970 <= year <= 9999
      ∧ valid_ymd year month day = true
      ∧ holds_day (days_from_civil year month day) = true
      ∧ stamp = mkFedStamp (Some (midnight (days_from_civil year month day))) None.
Proof.
  intros date stamp. unfold to_fedstamp.
  destruct date as [|a [|b [|c [|? ?]]]]; simpl; try done.
  - destruct (py_int a) as [year|] eqn:Ha; simpl; [| done].
    destruct (py_int b) as [month|] eqn:Hb; simpl; [| done].
    destruct (py_int c) as [day|] eqn:Hc; simpl; [| done].
    destruct ((1970 <=? year) && (year <=? 9999)) eqn:Hyear; [| done].
    intros (t & (t0 & Ht0 & Ht)%rbind_Ok & [= <-])%rbind_Ok.
    unfold to_pdtimestamp in Ht0.
    assert (valid_ymd year month day = true) as Hvalid.
    { unfold pd_Timestamp_ymd in Ht0. by destruct (valid_ymd year month day). }
    apply pd_Timestamp_ymd_held in Ht0 as [Hheld ->].
    apply _stamp_date_of_timestamp in Ht as (_ & _ & ->); [| done].
    exists a, b, c, year, month, day.
    apply andb_true_iff in Hyear as [?%Z.leb_le ?%Z.leb_le].
    repeat split; try done; lia.
Qed.

End stamp_further.




Lemma to_fedstamp_returns_only_for_a_date_witness :
  ∃ a b c year month day,
    [VInt 2024; VBool true; VInt 29] = [a; b; c]
    ∧ py_int a = Ok year ∧ py_int b = Ok month ∧ py_int c = Ok day
    ∧ 1970 <= year <= 9999
    ∧ valid_ymd year month day = true
    ∧ holds_day (days_from_civil year month day) = true
    ∧ fedstamp.mkFedStamp (Dept:=string) (Some (mkTimestamp 1706486400 None)) None
      = fedstamp.mkFedStamp (Some (midnight (days_from_civil year month day))) None.
Proof.
  apply (to_fedstamp_returns_only_for_a_date (Dept:=string)).
  reflexivity.
Defined.


(** ** What a grow method leaves of its builder *)

Section builder_state.
Import intervaltree time_utils _tree.
Context {Dept : Type} `{Countable Dept} `{!Constants Dept} `{Platform}.
Implicit Types (tr : gset (Interval Dept)) (iv : Interval Dept).

Lemma cr_grow_loop_grows date_range items tr :
  tr ⊆ (CRTreeGrower.grow_loop date_range items tr).2.
Proof.
  revert tr. induction items as [|item rest IH]; intros tr; simpl; [done |].
  destruct (CRTreeGrower.grow_step date_range tr item) as [tr1|e] eqn:Hstep;
    [| done].
  etrans; [| apply IH].
  apply cr_grow_step_Ok in Hstep as [(_ & -> & _) | (_ & ->)]; [| done].
  apply union_subseteq_r.
Qed.

Lemma gap_grow_loop_grows date_range items tr :
  tr ⊆ (AppropriationsGapsTreeGrower.grow_loop date_range items tr).2.
Proof.
  revert tr. induction items as [|item rest IH]; intros tr; simpl; [done |].
  destruct (AppropriationsGapsTreeGrower.grow_step date_range tr item)
    as [tr1|e] eqn:Hstep; [| done].
  etrans; [| apply IH].
  apply gap_grow_step_Ok in Hstep as [(_ & -> & _) | (_ & ->)]; [| done].
  apply union_subseteq_r.
Qed.

(** X17. A grow method, whether it returns or raises and whatever table and
    range it is given, removes no interval from the builder's tree and
    changes no other attribute of the builder: the table passed as an
    argument is used for the call and not stored.  When it returns, the
    tree it returns is the builder's tree.  This holds for both builders. *)
Theorem grow_only_adds_intervals :
  (∀ (self : CRTreeGrower.t Dept) table dates,
     let r := CRTreeGrower.grow_cr_tree self table dates in
     CRTreeGrower.tree self ⊆ CRTreeGrower.tree r.2
     ∧ CRTreeGrower.cr_departments r.2 = CRTreeGrower.cr_departments self
     ∧ CRTreeGrower.depts_set r.2 = CRTreeGrower.depts_set self
     ∧ (∀ tr, r.1 = Ok tr → CRTreeGrower.tree r.2 = tr))
  ∧ (∀ (self : AppropriationsGapsTreeGrower.t Dept) table dates,
     let r := AppropriationsGapsTreeGrower.grow_appropriation_gaps_tree
                self table dates in
     AppropriationsGapsTreeGrower.tree self ⊆ AppropriationsGapsTreeGrower.tree r.2
     ∧ AppropriationsGapsTreeGrower.appropriations_gaps r.2
       = AppropriationsGapsTreeGrower.appropriations_gaps self
     ∧ AppropriationsGapsTreeGrower.dates r.2
       = AppropriationsGapsTreeGrower.dates self
     ∧ (∀ tr, r.1 = Ok tr → AppropriationsGapsTreeGrower.tree r.2 = tr)).
Proof.
  split.
  - intros self table dates r. subst r. unfold CRTreeGrower.grow_cr_tree.
    destruct (truthy (CRTreeGrower.tree self)).
    { simpl. repeat split; try done. by intros tr [= <-]. }
    destruct (date_range_of dates) as [date_range|e]; [| by simpl].
    pose proof (cr_grow_loop_grows date_range
                  (default (CRTreeGrower.cr_departments self) table)
                  (CRTreeGrower.tree self)) as Hgrows.
    destruct (CRTreeGrower.grow_loop _ _ _) as [[[]|e] tr1]; simpl in *.
    + repeat split; try done. by intros tr [= <-].
    + by repeat split.
  - intros self table dates r. subst r.
    unfold AppropriationsGapsTreeGrower.grow_appropriation_gaps_tree.
    destruct (truthy (AppropriationsGapsTreeGrower.tree self)).
    { simpl. repeat split; try done. by intros tr [= <-]. }
    destruct (date_range_of dates) as [date_range|e]; [| by simpl].
    pose proof (gap_grow_loop_grows date_range
                  (default (AppropriationsGapsTreeGrower.appropriations_gaps self)
                     table)
                  (AppropriationsGapsTreeGrower.tree self)) as Hgrows.
    destruct (AppropriationsGapsTreeGrower.grow_loop _ _ _)
      as [[[]|e] tr1]; simpl in *.
    + repeat split; try done. by intros tr [= <-].
    + by repeat split.
Qed.

End builder_state.

Lemma grow_only_adds_intervals_witness :
  ∃ tr,
    (_tree.CRTreeGrower.grow_cr_tree Example.cr_builder
       (Some Example.early_table) None).1 = Ok tr
    ∧ _tree.CRTreeGrower.tree
        (_tree.CRTreeGrower.grow_cr_tree Example.cr_builder
           (Some Example.early_table) None).2 = tr
    ∧ _tree.CRTreeGrower.cr_departments
        (_tree.CRTreeGrower.grow_cr_tree Example.cr_builder
           (Some Example.early_table) None).2
      = CR_DEPARTMENTS.
Proof.
  destruct (grow_only_adds_intervals (Dept:=string)) as [Hcr _].
  destruct (Hcr Example.cr_builder (Some Example.early_table) None)
    as (_ & Htable & _ & Htree).
  returned_by_evaluation
    (_tree.CRTreeGrower.grow_cr_tree Example.cr_builder
       (Some Example.early_table) None) tr self' Hgrow.
  exists tr. split; [reflexivity |]. split; [| exact Htable].
  apply Htree. reflexivity.
Defined.


(** ** POSIX times *)

Section posix_times.
Import time_utils.
Context `{Platform}.

(** X18. An [int] is converted as a POSIX time in seconds: on a host whose
    UTC offset is below a day, every time within 8 640 000 000 seconds of
    the epoch converts, without an error, to midnight of the local day that
    contains it, so that two times of one local day give one stamp. *)
Theorem posix_time_converts_to_local_midnight :
  (∀ s, -86400 < utc_offset s < 86400) →
  ∀ n,
    -8640000000 <= n <= 8640000000 →
    to_timestamp (VInt n) = Ok (midnight ((n + utc_offset n) / 86400))
    ∧ ∀ n', -8640000000 <= n' <= 8640000000 →
        (n + utc_offset n) / 86400 = (n' + utc_offset n') / 86400 →
        to_timestamp (VInt n') = to_timestamp (VInt n).
Proof.
  intros Hoff.
  assert (Hconv : ∀ n, -8640000000 <= n <= 8640000000 →
    to_timestamp (VInt n) = Ok (midnight ((n + utc_offset n) / 86400))).
  { intros n Hn. specialize (Hoff n).
    assert (-100001 <= (n + utc_offset n) / 86400 <= 100001) as Hd
      by (Z.div_mod_to_equations; lia).
    unfold to_timestamp, _posix_to_timestamp, date_fromtimestamp.
    rewrite (proj2 (andb_true_iff _ _)) by lia. cbn [rbind].
    rewrite _stamp_date_of_day. unfold holds_day.
    by rewrite (proj2 (andb_true_iff _ _)) by lia. }
  intros n Hn. split; [by apply Hconv |].
  intros n' Hn' Hsame. by rewrite !Hconv, Hsame by done.
Qed.

End posix_times.

Lemma posix_time_converts_to_local_midnight_witness :
  time_utils.to_timestamp (VInt 1709230000) = Ok (midnight 19782)
  ∧ time_utils.to_timestamp (VInt 1709164800)
    = time_utils.to_timestamp (VInt 1709230000).
Proof.
  destruct (posix_time_converts_to_local_midnight (H:=utc_platform))
    with (n := 1709230000) as [Hn Hsame].
  - intros s. simpl. lia.
  - lia.
  - split; [exact Hn |]. apply Hsame; [lia | reflexivity].
Defined.
